(** * helm-exporter: the namespace registry and the metrics collector

    A shallow embedding of [main.go]: the registry of per-namespace release
    clients ([clients], [connect], the informer's event handlers) and the
    Prometheus collector ([newHelmCollector], [Describe], [Collect]),
    followed by the properties of one scrape and of the registry. *)

From Stdlib Require Import ZArith Lia Ascii.
From stdpp Require Import base option list strings pretty gmap.

Set Default Proof Using "Type".

(** ** Numbers

    Go's [int64] is a [Z] with its wrap-around written out.  Every [float64]
    this program produces comes from an integer (a constant of the status
    table or a conversion [float64(n)]), so it is integer valued and is
    represented by that integer; the conversion rounds to the 53 significant
    bits of the format, ties to even. *)
Module Num.

Definition int64_min : Z := - 2 ^ 63.
Definition int64_max : Z := 2 ^ 63 - 1.

Definition in_int64 (z : Z) : Prop := (int64_min <= z <= int64_max)%Z.

(** two's-complement reduction of a mathematical result to [int64] *)
Definition wrap64 (z : Z) : Z := ((z + 2 ^ 63) `mod` 2 ^ 64 - 2 ^ 63)%Z.

(** [a * b] on [int64] *)
Definition mul64 (a b : Z) : Z := wrap64 (a * b).

(** [float64(z)] for an integer [z] *)
Definition float64 (z : Z) : Z :=
  let a := Z.abs z in
  if (a <? 2 ^ 53)%Z then z
  else
    let e := (Z.log2 a - 52)%Z in
    let q := Z.shiftr a e in
    let r := Z.land a (Z.ones e) in
    let half := Z.shiftl 1 (e - 1) in
    let q' := if (half <? r)%Z || ((r =? half)%Z && Z.odd q)
              then (q + 1)%Z else q in
    (Z.sgn z * Z.shiftl q' e)%Z.

(** [strconv.FormatInt(z, 10)] *)
Definition FormatInt10 (z : Z) : string := pretty z.

End Num.

(** ** Helm's release records, as far as [Collect] reads them

    A release read from Helm's storage has its [Info], [Chart] and chart
    [Metadata] pointers set, so they are fields here rather than options. *)
Module chart.

Record Metadata := mkMetadata {
  md_Name : string;
  md_Version : string;
  md_AppVersion : string
}.

Record Chart := mkChart { Metadata_ : Metadata }.

(** the method [Chart.Name()] *)
Definition Name (ch : Chart) : string := md_Name (Metadata_ ch).
(** the method [Chart.AppVersion()] *)
Definition AppVersion (ch : Chart) : string := md_AppVersion (Metadata_ ch).

End chart.

Module release.

(** [time.Time], to the resolution of its two counters *)
Record Time := mkTime { seconds : Z; nanos : Z }.

(** [Time.Unix()]: seconds since the epoch *)
Definition Unix (t : Time) : Z := seconds t.

(** [release.Status] is a string type; [Status.String()] is the string *)
Record Info := mkInfo { LastDeployed : Time; Status : string }.

Record Release := mkRelease {
  Name : string;
  Info_ : Info;
  Chart : chart.Chart;
  Version : Z;
  Namespace : string
}.

End release.

Abbreviation Release := release.Release.

(** ** Prometheus descriptors and constant metrics *)
Module prometheus.

Record Desc := NewDesc {
  fqName : string;
  help : string;
  variableLabels : list string
}.

Inductive ValueType := CounterValue | GaugeValue | UntypedValue.

Record Metric := mkMetric {
  desc : Desc;
  valType : ValueType;
  value : Z;
  labelValues : list string
}.

(** [NewConstMetric] refuses a list of label values whose length is not
    that of the descriptor's variable labels.  (It also returns the error
    recorded in a descriptor that was built from invalid names, and refuses
    label values that are not valid UTF-8; the descriptors of
    [newHelmCollector] are valid and the strings of a release record are
    decoded text.) *)
Definition NewConstMetric (d : Desc) (t : ValueType) (v : Z)
    (lvs : list string) : option Metric :=
  if decide (length lvs = length (variableLabels d))
  then Some (mkMetric d t v lvs) else None.

(** the value a metric shows under the label [name], if it has that label *)
Definition label (name : string) (m : Metric) : option string :=
  match list_find (λ p : string * string, fst p = name)
          (zip (variableLabels (desc m)) (labelValues m)) with
  | Some (_, (_, v)) => Some v
  | None => None
  end.

End prometheus.

Abbreviation Desc := prometheus.Desc.
Abbreviation Metric := prometheus.Metric.

(** ** Effects: what a run sends and logs, and whether it panicked *)

Inductive Level := DebugLevel | InfoLevel | WarnLevel | FatalLevel.

Record Entry := mkEntry {
  level : Level;
  fields : list (string * string);
  message : string
}.

Inductive Event :=
| Send (m : Metric)
| Log (e : Entry).

(** how a computation ends: it returns, it panics, or the process exits *)
Inductive Outcome (A : Type) :=
| Returned (a : A)
| Panicked
| Exited.
Arguments Returned {A} a.
Arguments Panicked {A}.
Arguments Exited {A}.

(** A computation yields the events it performed, in order, and how it
    ended; nothing happens after a panic or an exit. *)
Definition M (A : Type) : Type := list Event * Outcome A.

Definition ret {A} (a : A) : M A := ([], Returned a).

Definition bind {A B} (m : M A) (k : A → M B) : M B :=
  match m with
  | (t, Returned a) => let '(t', r) := k a in (t ++ t', r)
  | (t, Panicked) => (t, Panicked)
  | (t, Exited) => (t, Exited)
  end.

Definition panic {A} : M A := ([], Panicked).
Definition emit (e : Event) : M unit := ([e], Returned tt).

Declare Scope go_scope.
Delimit Scope go_scope with go.
Notation "x <- c ;; k" := (bind c (λ x, k))
  (at level 100, c at next level, right associativity) : go_scope.
Notation "c ;;; k" := (bind c (λ _, k))
  (at level 100, right associativity) : go_scope.
Open Scope go_scope.

(** [for _, x := range l { body x }] *)
Fixpoint forRange {A} (l : list A) (body : A → M unit) : M unit :=
  match l with
  | [] => ret tt
  | x :: l' => body x ;;; forRange l' body
  end.

Definition events {A} (m : M A) : list Event := fst m.
Definition outcome {A} (m : M A) : Outcome A := snd m.

(** the metrics among the events, in the order sent *)
Definition sent (t : list Event) : list Metric :=
  omap (λ e, match e with Send m => Some m | Log _ => None end) t.

Definition Warnf (msg : string) : M unit :=
  emit (Log (mkEntry WarnLevel [] msg)).
Definition Infof (msg : string) : M unit :=
  emit (Log (mkEntry InfoLevel [] msg)).
Definition WithField_Debugf (k v msg : string) : M unit :=
  emit (Log (mkEntry DebugLevel [(k, v)] msg)).

Definition MustNewConstMetric (d : Desc) (t : prometheus.ValueType) (v : Z)
    (lvs : list string) : M Metric :=
  match prometheus.NewConstMetric d t v lvs with
  | Some m => ret m
  | None => panic
  end.

(** ** The program's globals *)

(** an [error], by its message *)
Definition error := string.

(** the command-line flags *)
Record Flags := mkFlags {
  namespaces : string;
  configFile : string;
  infoMetric : bool;
  timestampMetric : bool;
  countAllReleasesMetric : bool;
  fetchLatest : bool
}.

(** the defaults of the flag declarations *)
Definition defaultFlags : Flags := mkFlags "" "" true true true true.

Definition statusCodeMap : gmap string Z :=
  list_to_map
    [ ("unknown", 0%Z);
      ("deployed", 1%Z);
      ("uninstalled", 2%Z);
      ("superseded", 3%Z);
      ("failed", (-1)%Z);
      ("uninstalling", 5%Z);
      ("pending-install", 6%Z);
      ("pending-upgrade", 7%Z);
      ("pending-rollback", 8%Z) ].

(** [m[k]] on a Go map of [float64]: the zero value for a missing key *)
Definition index_float64 (m : gmap string Z) (k : string) : Z :=
  default 0%Z (m !! k).

(** An [*action.Configuration]: the address [new] returned. *)
Inductive Configuration := ConfigurationAt (addr : positive).

(** [clients]: the concurrent map from namespace to client.  Its operations
    are atomic, so a run of the program is a sequence of them. *)
Abbreviation Clients := (gmap string Configuration).

(** [clients.Items()] copies the map into a Go map; ranging over that visits
    the entries once each in an unspecified order. *)
Definition Items (clients : Clients) (l : list (string * Configuration)) : Prop :=
  l ≡ₚ map_to_list clients.

(** What the chart registries answer for a chart name. *)
Inductive Lookup :=
| Found (version : string)
| NotFound
| LookupFailed (e : error).

(** [registries.HelmRegistries], by the answers it obtains *)
Definition HelmRegistries := string → Lookup.

(** Modelled from the spec: the method [GetLatestVersionFromHelm] of
    [registries.HelmRegistries] is not part of [main.go].  The spec's
    ChartVersionResolver contract: "Must never raise a fatal error to the
    caller; any failure or "not found" resolves to an empty string." *)
Definition GetLatestVersionFromHelm (helmRegistries : HelmRegistries)
    (name : string) : string :=
  match helmRegistries name with
  | Found v => v
  | NotFound => ""
  | LookupFailed _ => ""
  end.

(** [config.Config], as far as [main.go] reads it *)
Record Config := mkConfig { cfg_HelmRegistries : HelmRegistries }.

Record helmCollector := mkHelmCollector {
  revisionsCounterDesc : Desc;
  statsInfoGaugeDesc : Desc;
  statsTimestampGaugeDesc : Desc
}.

Definition newHelmCollector : helmCollector :=
  {| revisionsCounterDesc :=
       prometheus.NewDesc "helm_chart_all_releases_total"
         "Total Number of all Helm releases"
         ["chart"; "release"; "namespace"];
     statsInfoGaugeDesc :=
       prometheus.NewDesc "helm_chart_info"
         "Information on helm releases"
         ["chart"; "release"; "version"; "appVersion"; "updated";
          "namespace"; "latestVersion"];
     statsTimestampGaugeDesc :=
       prometheus.NewDesc "helm_chart_timestamp"
         "Timestamps of helm releases"
         ["chart"; "release"; "version"; "appVersion"; "updated";
          "namespace"; "latestVersion"] |}.

Definition getLatestChartVersionFromHelm (name : string)
    (helmRegistries : HelmRegistries) : M string :=
  let version := GetLatestVersionFromHelm helmRegistries name in
  WithField_Debugf "chart" name ("last chart repo version is  " +:+ version) ;;;
  ret version.

(** ** The registry's writers *)

(** [connect]: [actionConfig] is the configuration [new] allocated and [err]
    what its [Init] returned. *)
Definition connect (namespace : string) (actionConfig : Configuration)
    (err : option error) (clients : Clients) : M Clients :=
  match err with
  | Some e =>
      Warnf ("failed to connect to " +:+ namespace +:+ " with " +:+ e) ;;;
      ret clients
  | None =>
      Infof ("Watching namespace " +:+ namespace) ;;;
      ret (<[namespace := actionConfig]> clients)
  end.

(** a notification of the namespace informer, with what the environment
    answers while it is handled *)
Inductive Notification :=
| Added (name : string) (actionConfig : Configuration) (err : option error)
| Deleted (name : string).

Definition AddFunc (name : string) (actionConfig : Configuration)
    (err : option error) (clients : Clients) : M Clients :=
  connect name actionConfig err clients.

Definition DeleteFunc (name : string) (clients : Clients) : M Clients :=
  Infof ("Removing namespace " +:+ name) ;;;
  ret (delete name clients).

Definition handle (n : Notification) (clients : Clients) : M Clients :=
  match n with
  | Added name actionConfig err => AddFunc name actionConfig err clients
  | Deleted name => DeleteFunc name clients
  end.

(** the informer delivers its notifications one at a time *)
Fixpoint deliver (ns : list Notification) (clients : Clients) : M Clients :=
  match ns with
  | [] => ret clients
  | n :: ns' => clients' <- handle n clients ;; deliver ns' clients'
  end.

(** [log.Fatal]: the entry is written and the process exits *)
Definition Fatal {A} (e : error) : M A :=
  ([Log (mkEntry FatalLevel [] e)], Exited).

(** [informer]: [initErr] and [clientsetErr] are what [Init] and
    [KubernetesClientSet] return; [ns] is what the informer delivers while it
    runs. *)
Definition informer (initErr clientsetErr : option error)
    (ns : list Notification) (clients : Clients) : M Clients :=
  match initErr with
  | Some e => Fatal e
  | None =>
      match clientsetErr with
      | Some e => Fatal e
      | None => deliver ns clients
      end
  end.

(** ** The collector *)

Definition Describe (flags : Flags) (c : helmCollector) : list Desc :=
  [revisionsCounterDesc c]
  ++ (if infoMetric flags then [statsInfoGaugeDesc c] else [])
  ++ (if timestampMetric flags then [statsTimestampGaugeDesc c] else []).

(** what [list.Run()] returns: the releases and the error *)
Definition Listing : Type := list Release * option error.

Section Collect.

Variable flags : Flags.
Variable cfg : Config.
(** the answer of the listing call made on each client *)
Variable Run : Configuration → Listing.

(** the body of the inner loop of [Collect] *)
Definition collectItem (c : helmCollector) (item : Release) : M unit :=
  let chart := chart.Name (release.Chart item) in
  let releaseName := release.Name item in
  let version := chart.md_Version (chart.Metadata_ (release.Chart item)) in
  let appVersion := chart.AppVersion (release.Chart item) in
  let updated :=
    Num.mul64 (release.Unix (release.LastDeployed (release.Info_ item))) 1000 in
  let namespace := release.Namespace item in
  let status :=
    index_float64 statusCodeMap (release.Status (release.Info_ item)) in
  latestVersion <-
    (if fetchLatest flags
     then getLatestChartVersionFromHelm (chart.Name (release.Chart item))
            (cfg_HelmRegistries cfg)
     else ret "") ;;
  let helmRevisionsLabelValues := [chart; releaseName; namespace] in
  let helmStatsInfoLabelValues :=
    [chart; releaseName; version; appVersion; Num.FormatInt10 updated;
     namespace; latestVersion] in
  let helmStatsTimestampLabelValues :=
    [chart; releaseName; version; appVersion; Num.FormatInt10 updated;
     namespace; latestVersion] in
  m <- MustNewConstMetric (revisionsCounterDesc c) prometheus.CounterValue
         (Num.float64 (release.Version item)) helmRevisionsLabelValues ;;
  emit (Send m) ;;;
  (if infoMetric flags
   then m <- MustNewConstMetric (statsInfoGaugeDesc c) prometheus.GaugeValue
               status helmStatsInfoLabelValues ;;
        emit (Send m)
   else ret tt) ;;;
  (if timestampMetric flags
   then m <- MustNewConstMetric (statsTimestampGaugeDesc c)
               prometheus.GaugeValue (Num.float64 updated)
               helmStatsTimestampLabelValues ;;
        emit (Send m)
   else ret tt).

(** the body of the outer loop *)
Definition collectClient (c : helmCollector) (client : Configuration) : M unit :=
  let '(items, err) := Run client in
  match err with
  | Some e => Warnf ("got error while listing " +:+ e)
  | None => forRange items (collectItem c)
  end.

(** [Collect], over the entries [clients.Items()] returned *)
Definition Collect (c : helmCollector)
    (items : list (string * Configuration)) : M unit :=
  forRange items (λ kv, collectClient c (snd kv)).

End Collect.

(** ** What one release contributes to a scrape *)

Definition updatedOf (item : Release) : Z :=
  Num.mul64 (release.Unix (release.LastDeployed (release.Info_ item))) 1000.

Definition latestVersionOf (flags : Flags) (cfg : Config) (item : Release) : string :=
  if fetchLatest flags
  then GetLatestVersionFromHelm (cfg_HelmRegistries cfg)
         (chart.Name (release.Chart item))
  else "".

(** the seven label values shared by the info and the timestamp metric *)
Definition statsLabelValues (latestVersion : string) (item : Release) : list string :=
  [chart.Name (release.Chart item); release.Name item;
   chart.md_Version (chart.Metadata_ (release.Chart item));
   chart.AppVersion (release.Chart item);
   Num.FormatInt10 (updatedOf item); release.Namespace item; latestVersion].

Definition revisionMetric (item : Release) : Metric :=
  prometheus.mkMetric (revisionsCounterDesc newHelmCollector)
    prometheus.CounterValue (Num.float64 (release.Version item))
    [chart.Name (release.Chart item); release.Name item;
     release.Namespace item].

Definition infoMetricOf (latestVersion : string) (item : Release) : Metric :=
  prometheus.mkMetric (statsInfoGaugeDesc newHelmCollector)
    prometheus.GaugeValue
    (index_float64 statusCodeMap (release.Status (release.Info_ item)))
    (statsLabelValues latestVersion item).

Definition timestampMetricOf (latestVersion : string) (item : Release) : Metric :=
  prometheus.mkMetric (statsTimestampGaugeDesc newHelmCollector)
    prometheus.GaugeValue (Num.float64 (updatedOf item))
    (statsLabelValues latestVersion item).

Definition itemMetrics (flags : Flags) (latestVersion : string)
    (item : Release) : list Metric :=
  [revisionMetric item]
  ++ (if infoMetric flags then [infoMetricOf latestVersion item] else [])
  ++ (if timestampMetric flags then [timestampMetricOf latestVersion item] else []).

(** the releases of a snapshot whose listing succeeded, in scrape order *)
Definition listed (Run : Configuration → Listing)
    (items : list (string * Configuration)) : list Release :=
  flat_map (λ kv, match Run (snd kv) with
                  | (rs, None) => rs
                  | (_, Some _) => []
                  end) items.

(** the samples of one metric family *)
Definition samplesNamed (name : string) (ms : list Metric) : list Metric :=
  filter (λ m, prometheus.fqName (prometheus.desc m) = name) ms.

(** the same metric with the value of one label blanked *)
Definition eraseLabel (name : string) (m : Metric) : Metric :=
  prometheus.mkMetric (prometheus.desc m) (prometheus.valType m)
    (prometheus.value m)
    (zip_with (λ n v, if decide (n = name) then "" else v)
       (prometheus.variableLabels (prometheus.desc m))
       (prometheus.labelValues m)).

(** a flag record that differs in [countAllReleasesMetric] only *)
Definition withCountAll (b : bool) (f : Flags) : Flags :=
  mkFlags (namespaces f) (configFile f) (infoMetric f) (timestampMetric f)
    b (fetchLatest f).

Definition withInfoMetric (b : bool) (f : Flags) : Flags :=
  mkFlags (namespaces f) (configFile f) b (timestampMetric f)
    (countAllReleasesMetric f) (fetchLatest f).

(** the names of the status table *)
Definition statusNames : list string :=
  ["unknown"; "deployed"; "uninstalled"; "superseded"; "failed";
   "uninstalling"; "pending-install"; "pending-upgrade"; "pending-rollback"].

(** ** Sample releases and registries *)

(** a release last deployed at epoch second 1700000000 *)
Definition web : Release :=
  release.mkRelease "web"
    (release.mkInfo (release.mkTime 1700000000 0) "deployed")
    (chart.mkChart (chart.mkMetadata "nginx" "1.2.0" "1.21")) 3 "prod".

Definition noRegistries : Config := mkConfig (λ _, NotFound).

(** a release whose status string is "failed" and one whose status string is
    not in the table *)
Definition broken : Release :=
  release.mkRelease "db" (release.mkInfo (release.mkTime 1700000100 0) "failed")
    (chart.mkChart (chart.mkMetadata "postgres" "12.1.0" "15.4")) 7 "prod".

Definition odd : Release :=
  release.mkRelease "cache" (release.mkInfo (release.mkTime 1700000200 0) "rolled-back")
    (chart.mkChart (chart.mkMetadata "redis" "18.0.0" "7.2")) 2 "prod".

(** ** Static mode

    [strings.Split(s, sep)] for a one-byte separator, as [main] calls it:
    the pieces of [s] between the separators, one more than there are
    separators. *)
Fixpoint Split (s : string) (sep : ascii) : list string :=
  match s with
  | EmptyString => [""]
  | String c s' =>
      if decide (c = sep) then "" :: Split s' sep
      else match Split s' sep with
           | p :: ps => String c p :: ps
           | [] => [String c ""]
           end
  end.

(** the loop of [main] over the configured namespaces; [answer k] is the
    configuration allocated by the [k]-th call of [connect] and what its
    [Init] returned *)
Fixpoint connectFrom (k : nat) (answer : nat → Configuration * option error)
    (names : list string) (clients : Clients) : M Clients :=
  match names with
  | [] => ret clients
  | namespace :: names' =>
      clients' <- connect namespace (fst (answer k)) (snd (answer k)) clients ;;
      connectFrom (S k) answer names' clients'
  end.

Definition connectNamespaces (flags : Flags)
    (answer : nat → Configuration * option error) (clients : Clients) : M Clients :=
  connectFrom 0 answer (Split (namespaces flags) ",") clients.

(** ** The handlers on the values the informer hands them

    A handler receives an [interface{}] and asserts [obj.(v1.Object)]
    before it reads the name; the assertion panics on a value that has no
    object metadata (a delete handler may be handed a
    [cache.DeletedFinalStateUnknown]).  [AddFunc] and [DeleteFunc] above
    are the handlers once the assertion holds. *)
Inductive Obj :=
| NamespaceObj (name : string)
| OtherObj.

(** [obj.(v1.Object)] followed by [GetName()] *)
Definition assertObject (obj : Obj) : M string :=
  match obj with
  | NamespaceObj name => ret name
  | OtherObj => panic
  end.

Inductive Handed :=
| HandedAdd (obj : Obj) (actionConfig : Configuration) (err : option error)
| HandedDelete (obj : Obj).

Definition onAdd (obj : Obj) (actionConfig : Configuration)
    (err : option error) (clients : Clients) : M Clients :=
  name <- assertObject obj ;;
  connect name actionConfig err clients.

Definition onDelete (obj : Obj) (clients : Clients) : M Clients :=
  name <- assertObject obj ;;
  Infof ("Removing namespace " +:+ name) ;;;
  ret (delete name clients).

Definition dispatch (h : Handed) (clients : Clients) : M Clients :=
  match h with
  | HandedAdd obj actionConfig err => onAdd obj actionConfig err clients
  | HandedDelete obj => onDelete obj clients
  end.

Fixpoint runHandlers (hs : list Handed) (clients : Clients) : M Clients :=
  match hs with
  | [] => ret clients
  | h :: hs' => clients' <- dispatch h clients ;; runHandlers hs' clients'
  end.

(** [informer], on the values its handlers are handed *)
Definition informerOn (initErr clientsetErr : option error)
    (hs : list Handed) (clients : Clients) : M Clients :=
  match initErr with
  | Some e => Fatal e
  | None =>
      match clientsetErr with
      | Some e => Fatal e
      | None => runHandlers hs clients
      end
  end.

(** the notification a handed value amounts to, when it is an object *)
Definition notificationOf (h : Handed) : option Notification :=
  match h with
  | HandedAdd (NamespaceObj name) actionConfig err => Some (Added name actionConfig err)
  | HandedDelete (NamespaceObj name) => Some (Deleted name)
  | HandedAdd OtherObj _ _ => None
  | HandedDelete OtherObj => None
  end.

(** the notifications handed before the first value that is not an object *)
Fixpoint handledPrefix (hs : list Handed) : list Notification :=
  match hs with
  | [] => []
  | h :: hs' =>
      match notificationOf h with
      | Some n => n :: handledPrefix hs'
      | None => []
      end
  end.

(** ** Vocabulary of the statements *)

(** what a notification does to the registry entry of namespace [N] *)
Definition effectOn (N : string) (cur : option Configuration)
    (n : Notification) : option Configuration :=
  match n with
  | Added name actionConfig None => if decide (name = N) then Some actionConfig else cur
  | Added _ _ (Some _) => cur
  | Deleted name => if decide (name = N) then None else cur
  end.

Definition entryAfter (N : string) (ns : list Notification)
    (cur : option Configuration) : option Configuration :=
  fold_left (effectOn N) ns cur.

(** the namespace a notification is about *)
Definition subject (n : Notification) : string :=
  match n with
  | Added name _ _ => name
  | Deleted name => name
  end.

(** the one line a notification leaves in the log *)
Definition logLine (n : Notification) : Entry :=
  match n with
  | Added name _ (Some e) =>
      mkEntry WarnLevel [] ("failed to connect to " +:+ name +:+ " with " +:+ e)
  | Added name _ None => mkEntry InfoLevel [] ("Watching namespace " +:+ name)
  | Deleted name => mkEntry InfoLevel [] ("Removing namespace " +:+ name)
  end.

(** the log entries among the events, in order *)
Definition logged (t : list Event) : list Entry :=
  omap (λ e, match e with Log e => Some e | Send _ => None end) t.

(** the log of one registry entry during a scrape *)
Definition clientLog (flags : Flags) (cfg : Config) (Run : Configuration → Listing)
    (client : Configuration) : list Entry :=
  match Run client with
  | (_, Some e) => [mkEntry WarnLevel [] ("got error while listing " +:+ e)]
  | (rs, None) =>
      if fetchLatest flags
      then (λ r, mkEntry DebugLevel [("chart", chart.Name (release.Chart r))]
                   ("last chart repo version is  "
                    +:+ GetLatestVersionFromHelm (cfg_HelmRegistries cfg)
                          (chart.Name (release.Chart r)))) <$> rs
      else []
  end.

(** the notifications that the calls of [connect] in static mode amount to *)
Fixpoint attempts (k : nat) (answer : nat → Configuration * option error)
    (names : list string) : list Notification :=
  match names with
  | [] => []
  | namespace :: names' =>
      Added namespace (fst (answer k)) (snd (answer k))
      :: attempts (S k) answer names'
  end.

(** how many times a byte occurs in a string *)
Fixpoint occurrences (c : ascii) (s : string) : nat :=
  match s with
  | EmptyString => 0
  | String c' s' => (if decide (c' = c) then 1 else 0) + occurrences c s'
  end.

(** the label counts [Collect] passes to each descriptor it uses *)
Definition fits (flags : Flags) (c : helmCollector) : Prop :=
  length (prometheus.variableLabels (revisionsCounterDesc c)) = 3
  ∧ (infoMetric flags = true →
     length (prometheus.variableLabels (statsInfoGaugeDesc c)) = 7)
  ∧ (timestampMetric flags = true →
     length (prometheus.variableLabels (statsTimestampGaugeDesc c)) = 7).

(** * Properties *)

(** ** The effect monad *)

Lemma bind_returned {A B} (t : list Event) (a : A) (k : A → M B) :
  bind (t, Returned a) k = (t ++ events (k a), outcome (k a)).
Proof. unfold bind, events, outcome. by destruct (k a). Qed.

Lemma forRange_returns {A} (body : A → M unit) (l : list A) :
  (∀ x, x ∈ l → outcome (body x) = Returned tt) →
  forRange l body = (flat_map (λ x, events (body x)) l, Returned tt).
Proof.
  induction l as [|x l IH]; intros Hbody; [done|].
  cbn [forRange flat_map].
  assert (Hx : outcome (body x) = Returned tt) by (apply Hbody; left).
  destruct (body x) as [t o] eqn:Ex. cbn in Hx. subst o.
  rewrite bind_returned, IH; [done|].
  intros y Hy. apply Hbody. by right.
Qed.

Lemma sent_app (t1 t2 : list Event) : sent (t1 ++ t2) = sent t1 ++ sent t2.
Proof. apply omap_app. Qed.

Lemma sent_flat_map {A} (f : A → list Event) (l : list A) :
  sent (flat_map f l) = flat_map (λ x, sent (f x)) l.
Proof.
  induction l as [|x l IH]; [done|].
  cbn [flat_map]. by rewrite sent_app, IH.
Qed.

Lemma samplesNamed_app name (ms1 ms2 : list Metric) :
  samplesNamed name (ms1 ++ ms2) = samplesNamed name ms1 ++ samplesNamed name ms2.
Proof. apply filter_app. Qed.

Lemma samplesNamed_flat_map {A} name (f : A → list Metric) (l : list A) :
  samplesNamed name (flat_map f l) = flat_map (λ x, samplesNamed name (f x)) l.
Proof.
  induction l as [|x l IH]; [done|].
  cbn [flat_map]. by rewrite samplesNamed_app, IH.
Qed.

Lemma flat_map_singleton {A B} (f : A → B) (l : list A) :
  flat_map (λ x, [f x]) l = f <$> l.
Proof. induction l as [|x l IH]; [done|]. cbn. by rewrite IH. Qed.

Lemma flat_map_flat_map {A B C} (f : A → list B) (g : B → list C) (l : list A) :
  flat_map g (flat_map f l) = flat_map (λ x, flat_map g (f x)) l.
Proof.
  induction l as [|x l IH]; [done|].
  cbn [flat_map]. by rewrite flat_map_app, IH.
Qed.

(** ** The loops of [Collect] *)

Section CollectFacts.

Variable flags : Flags.
Variable cfg : Config.
Variable Run : Configuration → Listing.

Lemma collectItem_returns item :
  outcome (collectItem flags cfg newHelmCollector item) = Returned tt.
Proof.
  unfold collectItem.
  destruct (fetchLatest flags), (infoMetric flags), (timestampMetric flags);
    reflexivity.
Qed.

Lemma sent_collectItem item :
  sent (events (collectItem flags cfg newHelmCollector item))
  = itemMetrics flags (latestVersionOf flags cfg item) item.
Proof.
  unfold collectItem, itemMetrics, latestVersionOf.
  destruct (fetchLatest flags), (infoMetric flags), (timestampMetric flags);
    reflexivity.
Qed.

Lemma collectItems_eq (rs : list Release) :
  forRange rs (collectItem flags cfg newHelmCollector)
  = (flat_map (λ r, events (collectItem flags cfg newHelmCollector r)) rs,
     Returned tt).
Proof. apply forRange_returns. intros; apply collectItem_returns. Qed.

Lemma collectClient_returns client :
  outcome (collectClient flags cfg Run newHelmCollector client) = Returned tt.
Proof.
  unfold collectClient. destruct (Run client) as [rs [e|]]; [done|].
  by rewrite collectItems_eq.
Qed.

Lemma Collect_eq (l : list (string * Configuration)) :
  Collect flags cfg Run newHelmCollector l
  = (flat_map (λ kv, events (collectClient flags cfg Run newHelmCollector (snd kv))) l,
     Returned tt).
Proof. apply forRange_returns. intros; apply collectClient_returns. Qed.

Lemma Collect_app (l1 l2 : list (string * Configuration)) :
  events (Collect flags cfg Run newHelmCollector (l1 ++ l2))
  = events (Collect flags cfg Run newHelmCollector l1)
    ++ events (Collect flags cfg Run newHelmCollector l2).
Proof. rewrite !Collect_eq. cbn. apply flat_map_app. Qed.

Lemma sent_collectClient client :
  sent (events (collectClient flags cfg Run newHelmCollector client))
  = flat_map (λ r, itemMetrics flags (latestVersionOf flags cfg r) r)
      (match Run client with (rs, None) => rs | (_, Some _) => [] end).
Proof.
  unfold collectClient. destruct (Run client) as [rs [e|]]; [done|].
  rewrite collectItems_eq. cbn [events fst].
  rewrite sent_flat_map. apply flat_map_ext. intros r. apply sent_collectItem.
Qed.

(** the samples of a scrape are those of the listed releases, in order *)
Lemma sent_Collect (l : list (string * Configuration)) :
  sent (events (Collect flags cfg Run newHelmCollector l))
  = flat_map (λ r, itemMetrics flags (latestVersionOf flags cfg r) r)
      (listed Run l).
Proof.
  rewrite Collect_eq. cbn [events fst]. rewrite sent_flat_map.
  unfold listed. rewrite flat_map_flat_map.
  apply flat_map_ext. intros kv. apply sent_collectClient.
Qed.

End CollectFacts.

(** ** Numeric conversions *)

Lemma wrap64_in_range (z : Z) : Num.in_int64 z → Num.wrap64 z = z.
Proof.
  unfold Num.in_int64, Num.int64_min, Num.int64_max, Num.wrap64. intros Hz.
  rewrite Z.mod_small; lia.
Qed.

Lemma float64_exact (z : Z) : (Z.abs z ≤ 2 ^ 53)%Z → Num.float64 z = z.
Proof.
  intros Hz. unfold Num.float64.
  destruct (Z.ltb_spec (Z.abs z) (2 ^ 53)) as [|Hge]; [done|].
  assert (Habs : Z.abs z = (2 ^ 53)%Z) by lia.
  rewrite Habs.
  destruct (Z.abs_eq_or_opp z) as [E|E]; rewrite E in Habs.
  - rewrite Habs. reflexivity.
  - assert (z = (- 2 ^ 53)%Z) as -> by lia. reflexivity.
Qed.

Lemma updatedOf_exact (item : Release) :
  let sec := release.Unix (release.LastDeployed (release.Info_ item)) in
  (Z.abs (sec * 1000) ≤ 2 ^ 53)%Z →
  updatedOf item = (sec * 1000)%Z ∧ Num.float64 (updatedOf item) = (sec * 1000)%Z.
Proof.
  intros sec Hs. unfold updatedOf, Num.mul64. fold sec.
  rewrite wrap64_in_range.
  - split; [done|]. by apply float64_exact.
  - unfold Num.in_int64, Num.int64_min, Num.int64_max. lia.
Qed.

(** ** The samples of each metric family *)

Lemma revision_of_itemMetrics flags latest r :
  samplesNamed "helm_chart_all_releases_total" (itemMetrics flags latest r)
  = [revisionMetric r].
Proof.
  unfold itemMetrics. destruct (infoMetric flags), (timestampMetric flags);
    reflexivity.
Qed.

Lemma info_of_itemMetrics flags latest r :
  samplesNamed "helm_chart_info" (itemMetrics flags latest r)
  = if infoMetric flags then [infoMetricOf latest r] else [].
Proof.
  unfold itemMetrics. destruct (infoMetric flags), (timestampMetric flags);
    reflexivity.
Qed.

Lemma timestamp_of_itemMetrics flags latest r :
  samplesNamed "helm_chart_timestamp" (itemMetrics flags latest r)
  = if timestampMetric flags then [timestampMetricOf latest r] else [].
Proof.
  unfold itemMetrics. destruct (infoMetric flags), (timestampMetric flags);
    reflexivity.
Qed.

Lemma revision_samples_of_Collect flags cfg Run l :
  samplesNamed "helm_chart_all_releases_total"
    (sent (events (Collect flags cfg Run newHelmCollector l)))
  = revisionMetric <$> listed Run l.
Proof.
  rewrite sent_Collect, samplesNamed_flat_map, <- flat_map_singleton.
  apply flat_map_ext. intros r. apply revision_of_itemMetrics.
Qed.

Lemma info_samples_of_Collect flags cfg Run l :
  infoMetric flags = true →
  samplesNamed "helm_chart_info"
    (sent (events (Collect flags cfg Run newHelmCollector l)))
  = (λ r, infoMetricOf (latestVersionOf flags cfg r) r) <$> listed Run l.
Proof.
  intros Hon.
  rewrite sent_Collect, samplesNamed_flat_map, <- flat_map_singleton.
  apply flat_map_ext. intros r. by rewrite info_of_itemMetrics, Hon.
Qed.

Lemma timestamp_samples_of_Collect flags cfg Run l :
  timestampMetric flags = true →
  samplesNamed "helm_chart_timestamp"
    (sent (events (Collect flags cfg Run newHelmCollector l)))
  = (λ r, timestampMetricOf (latestVersionOf flags cfg r) r) <$> listed Run l.
Proof.
  intros Hon.
  rewrite sent_Collect, samplesNamed_flat_map, <- flat_map_singleton.
  apply flat_map_ext. intros r. by rewrite timestamp_of_itemMetrics, Hon.
Qed.

(** ** C1: the timestamp sample *)

(** C1, as stated, fails: with the timestamp metric enabled, the
    helm_chart_timestamp sample of a release last deployed at epoch second
    1700000000 has the value 1700000000000, not the epoch seconds. *)
Lemma timestamp_value_not_epoch_seconds :
  let Run := λ _ : Configuration, ([web], None) in
  let ms := samplesNamed "helm_chart_timestamp"
              (sent (events (Collect defaultFlags noRegistries Run
                               newHelmCollector [("prod", ConfigurationAt 1)]))) in
  timestampMetric defaultFlags = true
  ∧ listed Run [("prod", ConfigurationAt 1)] = [web]
  ∧ release.Unix (release.LastDeployed (release.Info_ web)) = 1700000000%Z
  ∧ prometheus.value <$> ms = [1700000000000%Z]
  ∧ prometheus.value <$> ms
    ≠ (λ r, Num.float64 (release.Unix (release.LastDeployed (release.Info_ r))))
        <$> [web].
Proof. vm_compute. repeat split; discriminate. Qed.

(** C1, amended: with the timestamp metric enabled, a scrape emits one
    helm_chart_timestamp sample per listed release, whose value is the
    release's last-deployed epoch seconds multiplied by 1000 (in [int64],
    converted to [float64]): the number of milliseconds its [updated] label
    shows, and exactly [1000 * seconds] whenever that is at most 2^53 in
    magnitude. *)
Theorem timestamp_value_epoch_millis flags cfg Run l :
  timestampMetric flags = true →
  let ms := samplesNamed "helm_chart_timestamp"
              (sent (events (Collect flags cfg Run newHelmCollector l))) in
  prometheus.value <$> ms
  = (λ r, Num.float64
            (Num.mul64 (release.Unix (release.LastDeployed (release.Info_ r))) 1000))
      <$> listed Run l
  ∧ (Forall (λ r, (Z.abs (release.Unix (release.LastDeployed (release.Info_ r)) * 1000)
                   ≤ 2 ^ 53)%Z) (listed Run l) →
     prometheus.value <$> ms
     = (λ r, (release.Unix (release.LastDeployed (release.Info_ r)) * 1000)%Z)
         <$> listed Run l
     ∧ Forall2 (λ m r, prometheus.label "updated" m
                       = Some (Num.FormatInt10
                                 (release.Unix (release.LastDeployed (release.Info_ r))
                                  * 1000)))
         ms (listed Run l)).
Proof.
  intros Hon ms. subst ms. rewrite timestamp_samples_of_Collect by done.
  rewrite <- list_fmap_compose. split; [done|].
  generalize (listed Run l). intros rs Hsmall.
  induction Hsmall as [|r rs Hr _ [IHv IHl]]; [by split|].
  destruct (updatedOf_exact r Hr) as [Hu Hf]. split.
  - cbn [fmap list_fmap compose]. cbn [fmap] in IHv. rewrite IHv. f_equal.
    exact Hf.
  - cbn [fmap list_fmap]. constructor; [|exact IHl].
    unfold prometheus.label, timestampMetricOf, statsLabelValues.
    rewrite Hu. reflexivity.
Qed.

Lemma timestamp_value_epoch_millis_witness :
  let Run := λ _ : Configuration, ([web], None) in
  let l := [("prod", ConfigurationAt 1)] in
  timestampMetric defaultFlags = true
  ∧ Forall (λ r, (Z.abs (release.Unix (release.LastDeployed (release.Info_ r)) * 1000)
                  ≤ 2 ^ 53)%Z) (listed Run l)
  ∧ prometheus.value
      <$> samplesNamed "helm_chart_timestamp"
            (sent (events (Collect defaultFlags noRegistries Run newHelmCollector l)))
    = (λ r, (release.Unix (release.LastDeployed (release.Info_ r)) * 1000)%Z)
        <$> listed Run l.
Proof.
  intros Run l.
  assert (Hon : timestampMetric defaultFlags = true) by reflexivity.
  assert (Hs : Forall (λ r, (Z.abs (release.Unix (release.LastDeployed (release.Info_ r)) * 1000)
                             ≤ 2 ^ 53)%Z) (listed Run l)).
  { repeat constructor. cbn. lia. }
  split; [exact Hon|]. split; [exact Hs|].
  exact (proj1 (proj2 (timestamp_value_epoch_millis defaultFlags noRegistries
                         Run l Hon) Hs)).
Defined.

(** ** C2: the status table *)

Lemma statusCodeMap_outside (s : string) :
  s ∉ statusNames → statusCodeMap !! s = None.
Proof. intros Hs. by apply not_elem_of_list_to_map_1. Qed.

(** C2: the value of the info sample of every listed release is the code the
    status table gives its status string: unknown=0, deployed=1,
    uninstalled=2, superseded=3, failed=-1, uninstalling=5, pending-install=6,
    pending-upgrade=7, pending-rollback=8, and 0 (the zero value of a lookup
    that misses) for every string outside the table; the scrape returns
    whatever the status strings are. *)
Theorem status_code_table :
  (index_float64 statusCodeMap "unknown" = 0
   ∧ index_float64 statusCodeMap "deployed" = 1
   ∧ index_float64 statusCodeMap "uninstalled" = 2
   ∧ index_float64 statusCodeMap "superseded" = 3
   ∧ index_float64 statusCodeMap "failed" = -1
   ∧ index_float64 statusCodeMap "uninstalling" = 5
   ∧ index_float64 statusCodeMap "pending-install" = 6
   ∧ index_float64 statusCodeMap "pending-upgrade" = 7
   ∧ index_float64 statusCodeMap "pending-rollback" = 8)%Z
  ∧ (∀ s, s ∉ statusNames → index_float64 statusCodeMap s = 0%Z)
  ∧ (∀ flags cfg Run l,
       infoMetric flags = true →
       outcome (Collect flags cfg Run newHelmCollector l) = Returned tt
       ∧ prometheus.value
           <$> samplesNamed "helm_chart_info"
                 (sent (events (Collect flags cfg Run newHelmCollector l)))
         = (λ r, index_float64 statusCodeMap (release.Status (release.Info_ r)))
             <$> listed Run l).
Proof.
  split; [by vm_compute|]. split.
  - intros s Hs. unfold index_float64. by rewrite statusCodeMap_outside.
  - intros flags cfg Run l Hon. split.
    + by rewrite Collect_eq.
    + rewrite info_samples_of_Collect by done.
      by rewrite <- list_fmap_compose.
Qed.

Lemma status_code_table_witness :
  let Run := λ _ : Configuration, ([broken; odd], None) in
  let l := [("prod", ConfigurationAt 1)] in
  ("rolled-back" ∉ statusNames)
  ∧ index_float64 statusCodeMap "rolled-back" = 0%Z
  ∧ infoMetric defaultFlags = true
  ∧ outcome (Collect defaultFlags noRegistries Run newHelmCollector l) = Returned tt
  ∧ prometheus.value
      <$> samplesNamed "helm_chart_info"
            (sent (events (Collect defaultFlags noRegistries Run newHelmCollector l)))
    = [(-1)%Z; 0%Z].
Proof.
  intros Run l.
  assert (Hout : "rolled-back" ∉ statusNames).
  { unfold statusNames. rewrite !not_elem_of_cons. repeat split; try discriminate.
    apply not_elem_of_nil. }
  assert (Hon : infoMetric defaultFlags = true) by reflexivity.
  destruct status_code_table as (_ & Hdefault & Hscrape).
  destruct (Hscrape defaultFlags noRegistries Run l Hon) as [Hret Hval].
  split; [exact Hout|]. split; [exact (Hdefault _ Hout)|].
  split; [exact Hon|]. split; [exact Hret|]. exact Hval.
Defined.

(** ** C3: the revision-count samples *)

(** C3: whatever the flags, the revision-count samples of a scrape are, in
    order, one per listed release, with the descriptor's labels chart,
    release and namespace, the release's chart name, name and namespace as
    their values, and the release's revision number (as a [float64]) as the
    value; and for every entry of the snapshot whose listing succeeds with
    the releases [rs], the scrape's samples contain the samples of [rs] as a
    block, among which there are exactly [length rs] revision-count samples,
    those of [rs]. *)
Theorem revision_samples_per_release flags cfg Run l :
  prometheus.variableLabels (revisionsCounterDesc newHelmCollector)
  = ["chart"; "release"; "namespace"]
  ∧ samplesNamed "helm_chart_all_releases_total"
      (sent (events (Collect flags cfg Run newHelmCollector l)))
    = (λ r, prometheus.mkMetric (revisionsCounterDesc newHelmCollector)
              prometheus.CounterValue (Num.float64 (release.Version r))
              [chart.Name (release.Chart r); release.Name r; release.Namespace r])
        <$> listed Run l
  ∧ (∀ namespace client rs,
       (namespace, client) ∈ l →
       Run client = (rs, None) →
       let block := sent (events (forRange rs (collectItem flags cfg newHelmCollector))) in
       (∃ before after,
          sent (events (Collect flags cfg Run newHelmCollector l))
          = before ++ block ++ after)
       ∧ length (samplesNamed "helm_chart_all_releases_total" block) = length rs
       ∧ Forall2 (λ m r,
                    prometheus.desc m = revisionsCounterDesc newHelmCollector
                    ∧ (Z.abs (release.Version r) ≤ 2 ^ 53 →
                       prometheus.value m = release.Version r)%Z
                    ∧ prometheus.value m = Num.float64 (release.Version r)
                    ∧ prometheus.label "chart" m = Some (chart.Name (release.Chart r))
                    ∧ prometheus.label "release" m = Some (release.Name r)
                    ∧ prometheus.label "namespace" m = Some (release.Namespace r))
           (samplesNamed "helm_chart_all_releases_total" block) rs).
Proof.
  split; [done|]. split; [apply revision_samples_of_Collect|].
  intros namespace client rs Hin Hrun block.
  assert (Hblock : samplesNamed "helm_chart_all_releases_total" block
                   = revisionMetric <$> rs).
  { subst block. rewrite collectItems_eq. cbn [events fst].
    rewrite sent_flat_map, samplesNamed_flat_map, <- flat_map_singleton.
    apply flat_map_ext. intros r.
    rewrite sent_collectItem. apply revision_of_itemMetrics. }
  split; [|split].
  - apply list_elem_of_split in Hin as (l1 & l2 & ->).
    exists (sent (events (Collect flags cfg Run newHelmCollector l1))),
           (sent (events (Collect flags cfg Run newHelmCollector l2))).
    rewrite Collect_app, sent_app. f_equal.
    change ((namespace, client) :: l2) with ([(namespace, client)] ++ l2).
    rewrite Collect_app, sent_app. f_equal.
    rewrite (Collect_eq _ _ _ [(namespace, client)]).
    cbn [events fst flat_map snd]. rewrite app_nil_r.
    unfold collectClient. by rewrite Hrun.
  - by rewrite Hblock, length_fmap.
  - rewrite Hblock. apply Forall2_fmap_l, Forall_Forall2_diag, Forall_forall.
    intros r _. repeat split. intros Hv. by apply float64_exact.
Qed.

(** ** The registry snapshot *)

Lemma Items_lookup clients l namespace client :
  Items clients l →
  (namespace, client) ∈ l ↔ clients !! namespace = Some client.
Proof.
  unfold Items. intros Hl. rewrite Hl. apply elem_of_map_to_list.
Qed.

Lemma Items_NoDup_keys clients l : Items clients l → NoDup l.*1.
Proof.
  unfold Items. intros Hl. rewrite Hl. apply NoDup_fst_map_to_list.
Qed.

(** an entry of the snapshot splits it, and no other entry has its key *)
Lemma Items_split clients l N cN :
  Items clients l →
  clients !! N = Some cN →
  ∃ l1 l2, l = l1 ++ (N, cN) :: l2
           ∧ ∀ M cM, (M, cM) ∈ l1 ++ l2 → M ≠ N ∧ clients !! M = Some cM.
Proof.
  intros Hl HN.
  assert (Hin : (N, cN) ∈ l) by by apply (Items_lookup clients).
  apply list_elem_of_split in Hin as (l1 & l2 & ->).
  exists l1, l2. split; [done|]. intros M cM HM.
  pose proof (Items_NoDup_keys _ _ Hl) as Hnd.
  rewrite fmap_app, fmap_cons in Hnd. cbn [fst] in Hnd.
  apply NoDup_app in Hnd as (Hnd1 & Hnd12 & Hnd2).
  apply NoDup_cons in Hnd2 as [HN2 _].
  split.
  - intros ->. apply elem_of_app in HM as [HM|HM].
    + apply (Hnd12 N); [|left].
      apply list_elem_of_fmap. by exists (N, cM).
    + apply HN2. apply list_elem_of_fmap. by exists (N, cM).
  - apply (Items_lookup clients _ M cM Hl).
    apply elem_of_app in HM as [HM|HM]; apply elem_of_app; [by left|].
    right. by right.
Qed.

Lemma collectClient_ext flags cfg (Run Run' : Configuration → Listing) c client :
  Run' client = Run client →
  collectClient flags cfg Run' c client = collectClient flags cfg Run c client.
Proof. intros H. unfold collectClient. by rewrite H. Qed.

Lemma Collect_ext flags cfg (Run Run' : Configuration → Listing) c l :
  (∀ M cM, (M, cM) ∈ l → Run' cM = Run cM) →
  Collect flags cfg Run' c l = Collect flags cfg Run c l.
Proof.
  unfold Collect. induction l as [|[M cM] l IH]; intros Hagree; [done|].
  cbn [forRange snd]. rewrite IH.
  - rewrite (collectClient_ext _ _ Run Run'); [done|]. apply (Hagree M). left.
  - intros M' cM' HM'. apply (Hagree M'). by right.
Qed.

(** ** C4: a failed listing is isolated *)

(** C4: let the listing of namespace [N] fail in a scrape, and compare with
    the scrape in which it succeeds (with releases [items]) and every other
    namespace [M] of the registry lists the same.  The failing scrape
    returns; it logs the warning; every other namespace contributes the same
    events in both; and the samples of the failing scrape are those of the
    succeeding one with the samples of [N]'s releases taken out. *)
Theorem listing_failure_is_isolated flags cfg (Run Run' : Configuration → Listing)
    (clients : Clients) l N cN rs e items :
  Items clients l →
  clients !! N = Some cN →
  Run cN = (rs, Some e) →
  Run' cN = (items, None) →
  (∀ M cM, M ≠ N → clients !! M = Some cM → Run' cM = Run cM) →
  outcome (Collect flags cfg Run newHelmCollector l) = Returned tt
  ∧ Log (mkEntry WarnLevel [] ("got error while listing " +:+ e))
    ∈ events (Collect flags cfg Run newHelmCollector l)
  ∧ (∀ M cM, M ≠ N → clients !! M = Some cM →
       collectClient flags cfg Run newHelmCollector cM
       = collectClient flags cfg Run' newHelmCollector cM)
  ∧ ∃ l1 l2,
      l = l1 ++ (N, cN) :: l2
      ∧ sent (events (Collect flags cfg Run newHelmCollector l))
        = sent (events (Collect flags cfg Run newHelmCollector l1))
          ++ sent (events (Collect flags cfg Run newHelmCollector l2))
      ∧ sent (events (Collect flags cfg Run' newHelmCollector l))
        = sent (events (Collect flags cfg Run newHelmCollector l1))
          ++ sent (events (forRange items (collectItem flags cfg newHelmCollector)))
          ++ sent (events (Collect flags cfg Run newHelmCollector l2)).
Proof.
  intros Hl HN Hfail Hok Hsame.
  destruct (Items_split _ _ _ _ Hl HN) as (l1 & l2 & -> & Hother).
  assert (H1 : Collect flags cfg Run' newHelmCollector l1
               = Collect flags cfg Run newHelmCollector l1).
  { apply Collect_ext. intros M cM HM.
    destruct (Hother M cM) as [? ?]; [apply elem_of_app; by left|].
    by apply (Hsame M). }
  assert (H2 : Collect flags cfg Run' newHelmCollector l2
               = Collect flags cfg Run newHelmCollector l2).
  { apply Collect_ext. intros M cM HM.
    destruct (Hother M cM) as [? ?]; [apply elem_of_app; by right|].
    by apply (Hsame M). }
  assert (HN1 : ∀ R, events (Collect flags cfg R newHelmCollector [(N, cN)])
                     = events (collectClient flags cfg R newHelmCollector cN)).
  { intros R. rewrite Collect_eq. cbn [events fst flat_map snd].
    apply app_nil_r. }
  split; [by rewrite Collect_eq|]. split; [|split].
  - rewrite Collect_app. apply elem_of_app. right.
    change ((N, cN) :: l2) with ([(N, cN)] ++ l2).
    rewrite Collect_app. apply elem_of_app. left.
    rewrite HN1. unfold collectClient. rewrite Hfail. cbn. left.
  - intros M cM HM HcM. symmetry. apply collectClient_ext. by apply (Hsame M).
  - exists l1, l2. split; [done|].
    change ((N, cN) :: l2) with ([(N, cN)] ++ l2).
    rewrite !Collect_app, !sent_app, !HN1, H1, H2.
    unfold collectClient. rewrite Hfail, Hok. done.
Qed.

Lemma listing_failure_is_isolated_witness :
  let clients : Clients :=
    <["prod" := ConfigurationAt 1]> (<["dev" := ConfigurationAt 2]> ∅) in
  let Run := λ c : Configuration,
    match c with
    | ConfigurationAt 1 => ([], Some "connection refused")
    | _ => ([web], None)
    end in
  let Run' := λ c : Configuration,
    match c with
    | ConfigurationAt 1 => ([broken], None)
    | _ => ([web], None)
    end in
  outcome (Collect defaultFlags noRegistries Run newHelmCollector
             (map_to_list clients)) = Returned tt
  ∧ ∀ M cM, M ≠ "prod" → clients !! M = Some cM →
      collectClient defaultFlags noRegistries Run newHelmCollector cM
      = collectClient defaultFlags noRegistries Run' newHelmCollector cM.
Proof.
  intros clients Run Run'.
  assert (Hl : Items clients (map_to_list clients)) by (unfold Items; reflexivity).
  assert (HN : clients !! "prod" = Some (ConfigurationAt 1)) by reflexivity.
  assert (Hsame : ∀ M cM, M ≠ "prod" → clients !! M = Some cM → Run' cM = Run cM).
  { intros M cM HM HcM. subst clients.
    rewrite lookup_insert_ne in HcM by done.
    destruct (decide (M = "dev")) as [->|Hne].
    - rewrite lookup_insert_eq in HcM. by inversion HcM.
    - rewrite lookup_insert_ne, lookup_empty in HcM by done. discriminate. }
  destruct (listing_failure_is_isolated defaultFlags noRegistries Run Run'
              clients (map_to_list clients) "prod" (ConfigurationAt 1)
              [] "connection refused" [broken] Hl HN eq_refl eq_refl Hsame)
    as (Hret & _ & Hothers & _).
  split; [exact Hret | exact Hothers].
Defined.

(** ** The informer's notifications *)

Lemma handle_eq n (clients : Clients) :
  ∃ t clients', handle n clients = (t, Returned clients').
Proof.
  destruct n as [name ac [e|]|name]; cbn; unfold connect, DeleteFunc; cbn;
    eauto.
Qed.

Lemma deliver_returns ns (clients : Clients) :
  ∃ t clients', deliver ns clients = (t, Returned clients').
Proof.
  revert clients. induction ns as [|n ns IH]; intros clients.
  - by exists [], clients.
  - cbn [deliver]. destruct (handle_eq n clients) as (t & c1 & ->).
    destruct (IH c1) as (t' & c2 & E). rewrite bind_returned, E. eauto.
Qed.

Lemma deliver_app ns1 ns2 (clients : Clients) :
  deliver (ns1 ++ ns2) clients
  = (clients' <- deliver ns1 clients ;; deliver ns2 clients').
Proof.
  revert clients. induction ns1 as [|n ns1 IH]; intros clients.
  - cbn. by destruct (deliver ns2 clients).
  - cbn [app deliver]. destruct (handle_eq n clients) as (t & c1 & ->).
    rewrite !bind_returned, IH.
    destruct (deliver_returns ns1 c1) as (t1 & c2 & ->).
    unfold bind, events, outcome. cbn [fst snd].
    destruct (deliver ns2 c2) as [t2 o2]. cbn [fst snd]. by rewrite app_assoc.
Qed.

Lemma namespace_label_of_itemMetrics flags latest r m :
  m ∈ itemMetrics flags latest r →
  prometheus.label "namespace" m = Some (release.Namespace r).
Proof.
  unfold itemMetrics. intros Hm.
  apply elem_of_app in Hm as [Hm|Hm];
    [|apply elem_of_app in Hm as [Hm|Hm]].
  - apply list_elem_of_singleton in Hm as ->. reflexivity.
  - destruct (infoMetric flags); [|by apply elem_of_nil in Hm].
    apply list_elem_of_singleton in Hm as ->. reflexivity.
  - destruct (timestampMetric flags); [|by apply elem_of_nil in Hm].
    apply list_elem_of_singleton in Hm as ->. reflexivity.
Qed.

Lemma elem_of_flat_map {A B} (f : A → list B) (l : list A) (y : B) :
  y ∈ flat_map f l ↔ ∃ x, x ∈ l ∧ y ∈ f x.
Proof.
  rewrite list_elem_of_In, in_flat_map. split.
  - intros (x & Hx & Hy). exists x. by rewrite !list_elem_of_In.
  - intros (x & Hx & Hy). exists x. by rewrite <- !list_elem_of_In.
Qed.

Lemma listed_elem Run l r :
  r ∈ listed Run l →
  ∃ namespace client, (namespace, client) ∈ l ∧ r ∈ fst (Run client).
Proof.
  unfold listed. rewrite elem_of_flat_map. intros ([M cM] & HM & Hr).
  exists M, cM. split; [done|]. cbn [snd] in Hr.
  destruct (Run cM) as [rs [e|]]; [by apply elem_of_nil in Hr | done].
Qed.

(** ** C5: a namespace added and then removed *)

(** C5, as stated, fails in its second half: an added notification for a
    namespace already in the registry does not overwrite the entry when the
    client cannot be built; the existing client stays. *)
Lemma added_for_present_namespace_may_not_overwrite :
  let clients : Clients := <["prod" := ConfigurationAt 1]> ∅ in
  clients !! "prod" = Some (ConfigurationAt 1)
  ∧ ∃ t clients',
      AddFunc "prod" (ConfigurationAt 2) (Some "connection refused") clients
      = (t, Returned clients')
      ∧ clients' !! "prod" = Some (ConfigurationAt 1)
      ∧ clients' !! "prod" ≠ Some (ConfigurationAt 2).
Proof.
  cbn zeta. split; [reflexivity|].
  eexists _, _. split; [reflexivity|]. split; [reflexivity|].
  rewrite lookup_insert_eq. intros H. discriminate H.
Qed.

(** C5, amended: when the informer delivers an added notification for [N]
    and later a removed notification for [N], whatever the connection
    attempt gave and whatever was delivered in between, the registry then
    has no entry for [N]; no snapshot of it has an entry for [N], and in a
    scrape where every client lists releases of its own namespace no sample
    carries namespace [N].  And an added notification for a namespace
    already in the registry replaces the entry when its client is built, and
    leaves the registry as it was when the client cannot be built. *)
Theorem added_then_removed (N : string) :
  (∀ (clients : Clients) actionConfig err mid,
     ∃ t clients',
       deliver (Added N actionConfig err :: mid ++ [Deleted N]) clients
       = (t, Returned clients')
       ∧ clients' !! N = None
       ∧ ∀ l, Items clients' l →
           (N ∉ l.*1)
           ∧ ∀ flags cfg (Run : Configuration → Listing),
               (∀ M cM r, clients' !! M = Some cM → r ∈ fst (Run cM) →
                          release.Namespace r = M) →
               ∀ m, m ∈ sent (events (Collect flags cfg Run newHelmCollector l)) →
                    prometheus.label "namespace" m ≠ Some N)
  ∧ (∀ (clients : Clients) old actionConfig,
       clients !! N = Some old →
       ∃ t clients',
         AddFunc N actionConfig None clients = (t, Returned clients')
         ∧ clients' !! N = Some actionConfig
         ∧ ∀ M, M ≠ N → clients' !! M = clients !! M)
  ∧ (∀ (clients : Clients) old actionConfig e,
       clients !! N = Some old →
       ∃ t clients',
         AddFunc N actionConfig (Some e) clients = (t, Returned clients')
         ∧ clients' = clients
         ∧ clients' !! N = Some old).
Proof.
  split; [|split].
  - intros clients ac err mid.
    change (Added N ac err :: mid ++ [Deleted N])
      with ((Added N ac err :: mid) ++ [Deleted N]).
    rewrite deliver_app.
    destruct (deliver_returns (Added N ac err :: mid) clients) as (t1 & c1 & ->).
    rewrite bind_returned. cbn.
    eexists _, _. split; [reflexivity|].
    split; [apply lookup_delete_eq|].
    intros l Hl.
    assert (Hno : ∀ c, (N, c) ∉ l).
    { intros c Hc. apply (Items_lookup _ _ _ _ Hl) in Hc.
      by rewrite lookup_delete_eq in Hc. }
    split.
    + intros HN. apply list_elem_of_fmap in HN as ([M c] & HM & Hin).
      cbn in HM. subst M. by apply (Hno c).
    + intros flags cfg Run Hscoped m Hm Hlab.
      rewrite sent_Collect in Hm.
      apply elem_of_flat_map in Hm as (r & Hr & Hm).
      apply namespace_label_of_itemMetrics in Hm.
      rewrite Hm in Hlab. injection Hlab as Hns.
      apply listed_elem in Hr as (M & cM & HM & Hr).
      assert (HcM : delete N c1 !! M = Some cM)
        by by apply (Items_lookup _ l).
      rewrite (Hscoped M cM r HcM Hr) in Hns. subst M.
      by apply (Hno cM).
  - intros clients old ac Hold. unfold AddFunc, connect. cbn.
    eexists _, _. split; [reflexivity|]. split.
    + apply lookup_insert_eq.
    + intros M HM. by apply lookup_insert_ne.
  - intros clients old ac e Hold. unfold AddFunc, connect. cbn.
    eexists _, _. split; [reflexivity|]. by split.
Qed.

Lemma added_then_removed_witness :
  let clients : Clients := <["prod" := ConfigurationAt 1]> ∅ in
  clients !! "prod" = Some (ConfigurationAt 1)
  ∧ (∃ t clients',
       AddFunc "prod" (ConfigurationAt 2) None clients = (t, Returned clients')
       ∧ clients' !! "prod" = Some (ConfigurationAt 2)
       ∧ ∀ M, M ≠ "prod" → clients' !! M = clients !! M)
  ∧ (∃ t clients',
       deliver ([Added "prod" (ConfigurationAt 2) None;
                 Added "dev" (ConfigurationAt 3) (Some "forbidden");
                 Deleted "prod"]) clients
       = (t, Returned clients')
       ∧ clients' !! "prod" = None)
  ∧ (∃ t clients',
       AddFunc "prod" (ConfigurationAt 2) (Some "connection refused") clients
       = (t, Returned clients')
       ∧ clients' = clients
       ∧ clients' !! "prod" = Some (ConfigurationAt 1)).
Proof.
  intros clients.
  assert (Hold : clients !! "prod" = Some (ConfigurationAt 1)) by reflexivity.
  split; [exact Hold|]. split; [|split].
  - exact (proj1 (proj2 (added_then_removed "prod")) clients (ConfigurationAt 1)
             (ConfigurationAt 2) Hold).
  - destruct (proj1 (added_then_removed "prod") clients (ConfigurationAt 2) None
                [Added "dev" (ConfigurationAt 3) (Some "forbidden")])
      as (t & clients' & Hrun & Hgone & _).
    exists t, clients'. split; [exact Hrun | exact Hgone].
  - exact (proj2 (proj2 (added_then_removed "prod")) clients (ConfigurationAt 1)
             (ConfigurationAt 2) "connection refused" Hold).
Defined.

(** ** C6: the info-metric switch *)

Lemma filter_flat_map {A B} (P : B → Prop) `{∀ y, Decision (P y)}
    (f : A → list B) (l : list A) :
  filter P (flat_map f l) = flat_map (λ x, filter P (f x)) l.
Proof.
  induction l as [|x l IH]; [done|].
  cbn [flat_map]. by rewrite filter_app, IH.
Qed.

(** C6: with the info-metric switch off a scrape emits no helm_chart_info
    sample, and what it emits is what the scrape with the switch on emits
    with the helm_chart_info samples taken out: the revision-count samples
    and the timestamp samples are the same with the switch on or off. *)
Theorem info_switch_off flags cfg Run l :
  let on := Collect (withInfoMetric true flags) cfg Run newHelmCollector l in
  let off := Collect (withInfoMetric false flags) cfg Run newHelmCollector l in
  samplesNamed "helm_chart_info" (sent (events off)) = []
  ∧ sent (events off)
    = filter (λ m, prometheus.fqName (prometheus.desc m) ≠ "helm_chart_info")
        (sent (events on))
  ∧ samplesNamed "helm_chart_all_releases_total" (sent (events off))
    = samplesNamed "helm_chart_all_releases_total" (sent (events on))
  ∧ samplesNamed "helm_chart_timestamp" (sent (events off))
    = samplesNamed "helm_chart_timestamp" (sent (events on))
  ∧ outcome off = Returned tt.
Proof.
  intros on off. subst on off. rewrite !sent_Collect.
  split; [|split; [|split; [|split]]].
  - rewrite samplesNamed_flat_map.
    induction (listed Run l) as [|r rs IH]; [done|].
    cbn [flat_map]. rewrite IH, info_of_itemMetrics. reflexivity.
  - rewrite filter_flat_map. apply flat_map_ext. intros r.
    unfold itemMetrics, latestVersionOf. cbn [infoMetric timestampMetric
      fetchLatest withInfoMetric].
    destruct (timestampMetric flags); reflexivity.
  - rewrite !samplesNamed_flat_map. apply flat_map_ext. intros r.
    by rewrite !revision_of_itemMetrics.
  - rewrite !samplesNamed_flat_map. apply flat_map_ext. intros r.
    by rewrite !timestamp_of_itemMetrics.
  - by rewrite Collect_eq.
Qed.

(** ** C7: the latest-version label *)

(** C7: when latest-version resolution is disabled, or it is enabled and the
    registries fail or find nothing for the release's chart, the loop body
    returns and the release's samples are emitted, the info and timestamp
    samples with an empty latestVersion label; and a scrape returns whatever
    the registries answer. *)
Theorem latest_version_empty_when_unresolved flags cfg item :
  (fetchLatest flags = false
   ∨ cfg_HelmRegistries cfg (chart.Name (release.Chart item)) = NotFound
   ∨ ∃ e, cfg_HelmRegistries cfg (chart.Name (release.Chart item)) = LookupFailed e) →
  let ms := sent (events (collectItem flags cfg newHelmCollector item)) in
  outcome (collectItem flags cfg newHelmCollector item) = Returned tt
  ∧ ms = [revisionMetric item]
         ++ (if infoMetric flags then [infoMetricOf "" item] else [])
         ++ (if timestampMetric flags then [timestampMetricOf "" item] else [])
  ∧ (∀ m, m ∈ ms →
       prometheus.fqName (prometheus.desc m) ≠ "helm_chart_all_releases_total" →
       prometheus.label "latestVersion" m = Some "")
  ∧ (∀ Run l, outcome (Collect flags cfg Run newHelmCollector l) = Returned tt).
Proof.
  intros Hunresolved ms.
  assert (Hlatest : latestVersionOf flags cfg item = "").
  { unfold latestVersionOf, GetLatestVersionFromHelm.
    destruct (fetchLatest flags); [|done].
    destruct Hunresolved as [?|[->|[e ->]]]; done. }
  assert (Hms : ms = itemMetrics flags "" item).
  { subst ms. by rewrite sent_collectItem, Hlatest. }
  split; [apply collectItem_returns|]. split; [exact Hms|]. split.
  - intros m Hm Hname. rewrite Hms in Hm. unfold itemMetrics in Hm.
    apply elem_of_app in Hm as [Hm|Hm];
      [|apply elem_of_app in Hm as [Hm|Hm]].
    + apply list_elem_of_singleton in Hm as ->. by destruct Hname.
    + destruct (infoMetric flags); [|by apply elem_of_nil in Hm].
      apply list_elem_of_singleton in Hm as ->. reflexivity.
    + destruct (timestampMetric flags); [|by apply elem_of_nil in Hm].
      apply list_elem_of_singleton in Hm as ->. reflexivity.
  - intros Run l. by rewrite Collect_eq.
Qed.

Lemma latest_version_empty_when_unresolved_witness :
  let cfg := mkConfig (λ name, if decide (name = "nginx")
                               then LookupFailed "timeout" else Found "9.9.9") in
  (fetchLatest defaultFlags = false
   ∨ cfg_HelmRegistries cfg (chart.Name (release.Chart web)) = NotFound
   ∨ ∃ e, cfg_HelmRegistries cfg (chart.Name (release.Chart web)) = LookupFailed e)
  ∧ sent (events (collectItem defaultFlags cfg newHelmCollector web))
    = [revisionMetric web; infoMetricOf "" web; timestampMetricOf "" web].
Proof.
  intros cfg.
  assert (H : fetchLatest defaultFlags = false
              ∨ cfg_HelmRegistries cfg (chart.Name (release.Chart web)) = NotFound
              ∨ ∃ e, cfg_HelmRegistries cfg (chart.Name (release.Chart web))
                     = LookupFailed e).
  { right. right. exists "timeout". reflexivity. }
  split; [exact H|].
  exact (proj1 (proj2 (latest_version_empty_when_unresolved defaultFlags cfg web H))).
Defined.

(** ** C8: a failed connection *)


(** ** C9: two scrapes of the same cluster state *)

Lemma listed_Permutation Run (l1 l2 : list (string * Configuration)) :
  l1 ≡ₚ l2 → listed Run l1 ≡ₚ listed Run l2.
Proof. intros H. unfold listed. by apply Permutation_flat_map. Qed.

Lemma fmap_flat_map {A B C} (g : B → C) (f : A → list B) (l : list A) :
  g <$> flat_map f l = flat_map (λ x, g <$> f x) l.
Proof.
  induction l as [|x l IH]; [done|].
  cbn [flat_map]. by rewrite fmap_app, IH.
Qed.

Lemma eraseLabel_itemMetrics flags latest latest' r :
  eraseLabel "latestVersion" <$> itemMetrics flags latest r
  = eraseLabel "latestVersion" <$> itemMetrics flags latest' r.
Proof.
  unfold itemMetrics.
  destruct (infoMetric flags), (timestampMetric flags); reflexivity.
Qed.

(** C9: two scrapes of the same registry with the same listing results,
    whatever order each visits the entries in and whatever the registries
    answer to each, emit the same samples up to order once the latestVersion
    label is blanked; with the same resolved versions they emit the same
    samples up to order, and visiting the entries in the same order, the same
    sequence. *)
Theorem scrapes_are_idempotent flags cfg cfg' Run (clients : Clients) l1 l2 :
  Items clients l1 →
  Items clients l2 →
  let s1 := sent (events (Collect flags cfg Run newHelmCollector l1)) in
  let s2 := sent (events (Collect flags cfg' Run newHelmCollector l2)) in
  eraseLabel "latestVersion" <$> s1 ≡ₚ eraseLabel "latestVersion" <$> s2
  ∧ ((∀ r, latestVersionOf flags cfg r = latestVersionOf flags cfg' r) → s1 ≡ₚ s2)
  ∧ (l1 = l2 →
     eraseLabel "latestVersion" <$> s1 = eraseLabel "latestVersion" <$> s2).
Proof.
  intros H1 H2 s1 s2. subst s1 s2. rewrite !sent_Collect.
  assert (Hl : l1 ≡ₚ l2) by (unfold Items in *; by rewrite H1, H2).
  pose proof (listed_Permutation Run _ _ Hl) as Hrs.
  assert (Herase : ∀ rs,
    eraseLabel "latestVersion"
      <$> flat_map (λ r, itemMetrics flags (latestVersionOf flags cfg r) r) rs
    = eraseLabel "latestVersion"
      <$> flat_map (λ r, itemMetrics flags (latestVersionOf flags cfg' r) r) rs).
  { intros rs. rewrite !fmap_flat_map. apply flat_map_ext. intros r.
    apply eraseLabel_itemMetrics. }
  split; [|split].
  - rewrite Herase. apply fmap_Permutation. by apply Permutation_flat_map.
  - intros Hsame.
    rewrite (flat_map_ext _ (λ r, itemMetrics flags (latestVersionOf flags cfg' r) r)).
    + by apply Permutation_flat_map.
    + intros r. by rewrite Hsame.
  - intros ->. apply Herase.
Qed.

Lemma scrapes_are_idempotent_witness :
  let clients : Clients :=
    <["prod" := ConfigurationAt 1]> (<["dev" := ConfigurationAt 2]> ∅) in
  let Run := λ c : Configuration,
    match c with
    | ConfigurationAt 1 => ([web; broken], None)
    | _ => ([odd], None)
    end in
  let cfg' := mkConfig (λ _, Found "2.0.0") in
  let l1 := [("prod", ConfigurationAt 1); ("dev", ConfigurationAt 2)] in
  let l2 := [("dev", ConfigurationAt 2); ("prod", ConfigurationAt 1)] in
  Items clients l1 ∧ Items clients l2
  ∧ eraseLabel "latestVersion"
      <$> sent (events (Collect defaultFlags noRegistries Run newHelmCollector l1))
    ≡ₚ eraseLabel "latestVersion"
      <$> sent (events (Collect defaultFlags cfg' Run newHelmCollector l2)).
Proof.
  intros clients Run cfg' l1 l2.
  assert (H2 : Items clients l2) by (unfold Items; reflexivity).
  assert (H1 : Items clients l1) by (unfold Items; apply perm_swap).
  split; [exact H1|]. split; [exact H2|].
  exact (proj1 (scrapes_are_idempotent defaultFlags noRegistries cfg' Run
                  clients l1 l2 H1 H2)).
Defined.

(** ** C10: the count-all-releases flag *)

(** C10: the value of the count-all-releases-metric flag changes nothing:
    two runs that differ in it only describe the same descriptors and perform
    the same events with the same outcome, and the revision-count samples
    are emitted, one per listed release, whatever its value. *)
Theorem count_all_flag_has_no_effect flags (b : bool) cfg Run c l :
  Collect (withCountAll b flags) cfg Run c l = Collect flags cfg Run c l
  ∧ Describe (withCountAll b flags) c = Describe flags c
  ∧ samplesNamed "helm_chart_all_releases_total"
      (sent (events (Collect (withCountAll b flags) cfg Run newHelmCollector l)))
    = revisionMetric <$> listed Run l.
Proof.
  split; [reflexivity|]. split; [reflexivity|].
  apply revision_samples_of_Collect.
Qed.

(** * Further properties of the registry *)

Lemma handle_spec n (clients : Clients) :
  ∃ clients', handle n clients = ([Log (logLine n)], Returned clients')
              ∧ ∀ N, clients' !! N = effectOn N (clients !! N) n.
Proof.
  destruct n as [name ac [e|]|name]; cbn; unfold connect, DeleteFunc; cbn.
  - by exists clients.
  - eexists. split; [reflexivity|]. intros N. apply lookup_insert.
  - eexists. split; [reflexivity|]. intros N. apply lookup_delete.
Qed.

Lemma deliver_spec ns (clients : Clients) :
  ∃ clients', deliver ns clients = ((λ n, Log (logLine n)) <$> ns, Returned clients')
              ∧ ∀ N, clients' !! N = entryAfter N ns (clients !! N).
Proof.
  revert clients. induction ns as [|n ns IH]; intros clients.
  - by exists clients.
  - cbn [deliver]. destruct (handle_spec n clients) as (c1 & -> & H1).
    destruct (IH c1) as (c2 & E & H2). rewrite bind_returned, E.
    exists c2. split; [done|]. intros N.
    rewrite H2, H1. reflexivity.
Qed.

Lemma entryAfter_origin N ns cur c :
  entryAfter N ns cur = Some c →
  cur = Some c ∨ Added N c None ∈ ns.
Proof.
  revert cur. induction ns as [|n ns IH]; intros cur; [by left|].
  cbn [entryAfter fold_left]. intros H.
  apply IH in H as [H|H]; [|right; by right].
  destruct n as [name ac [e|]|name]; cbn in H.
  - by left.
  - destruct (decide (name = N)) as [->|]; [|by left].
    injection H as ->. right. left.
  - destruct (decide (name = N)); [done|by left].
Qed.

Lemma entryAfter_untouched N ns cur :
  Forall (λ n, subject n ≠ N) ns → entryAfter N ns cur = cur.
Proof.
  intros H. revert cur. induction H as [|n ns Hn _ IH]; intros cur; [done|].
  cbn [entryAfter fold_left]. unfold entryAfter in IH. rewrite IH.
  destruct n as [name ac [e|]|name]; cbn in *; [done| |];
    by destruct (decide (name = N)).
Qed.

(** X1: after the informer has delivered any notifications, the registry
    entry of every namespace is what the notifications about that namespace
    alone make of its previous entry, the last one that took effect deciding:
    a successful add installs its client, a removal clears the entry, a
    failed add changes nothing. *)
Theorem registry_entry_after_notifications ns (clients : Clients) :
  ∃ t clients',
    deliver ns clients = (t, Returned clients')
    ∧ ∀ N, clients' !! N = entryAfter N ns (clients !! N).
Proof.
  destruct (deliver_spec ns clients) as (c' & E & H). eauto.
Qed.

(** X2: notifications about other namespaces never change the entry of a
    namespace. *)
Theorem other_namespaces_untouched ns (clients : Clients) N :
  Forall (λ n, subject n ≠ N) ns →
  ∃ t clients',
    deliver ns clients = (t, Returned clients') ∧ clients' !! N = clients !! N.
Proof.
  intros Hns. destruct (deliver_spec ns clients) as (c' & E & H).
  eexists _, c'. split; [exact E|]. rewrite H. by apply entryAfter_untouched.
Qed.

Lemma other_namespaces_untouched_witness :
  let clients : Clients := <["prod" := ConfigurationAt 1]> ∅ in
  let ns := [Added "dev" (ConfigurationAt 2) None; Deleted "test";
             Added "stage" (ConfigurationAt 3) (Some "forbidden")] in
  Forall (λ n, subject n ≠ "prod") ns
  ∧ ∃ t clients',
      deliver ns clients = (t, Returned clients')
      ∧ clients' !! "prod" = Some (ConfigurationAt 1).
Proof.
  intros clients ns.
  assert (Hns : Forall (λ n, subject n ≠ "prod") ns)
    by (repeat constructor; discriminate).
  split; [exact Hns|].
  exact (other_namespaces_untouched ns clients "prod" Hns).
Defined.

(** X3: for a namespace with no entry, an add followed by its removal gives
    back the registry as it was, whether the connection succeeded or not;
    and a removal alone leaves the registry as it was. *)
Theorem add_remove_round_trip N actionConfig err (clients : Clients) :
  clients !! N = None →
  outcome (deliver [Added N actionConfig err; Deleted N] clients) = Returned clients
  ∧ outcome (DeleteFunc N clients) = Returned clients.
Proof.
  intros HN. split.
  - destruct err as [e|]; cbn; unfold connect; cbn.
    + by rewrite delete_id.
    + by rewrite delete_insert_id.
  - cbn. by rewrite delete_id.
Qed.

Lemma add_remove_round_trip_witness :
  let clients : Clients := <["prod" := ConfigurationAt 1]> ∅ in
  clients !! "dev" = None
  ∧ outcome (deliver [Added "dev" (ConfigurationAt 2) None; Deleted "dev"] clients)
    = Returned clients.
Proof.
  intros clients.
  assert (H : clients !! "dev" = None) by reflexivity.
  split; [exact H|].
  exact (proj1 (add_remove_round_trip "dev" (ConfigurationAt 2) None clients H)).
Defined.

(** X4: every client in the registry after the informer has delivered its
    notifications was there before or was installed by a successful add for
    that very namespace. *)
Theorem registry_clients_come_from_adds ns (clients : Clients) N c :
  (∃ t clients', deliver ns clients = (t, Returned clients')
                 ∧ clients' !! N = Some c) →
  clients !! N = Some c ∨ Added N c None ∈ ns.
Proof.
  intros (t & c' & E & Hc).
  destruct (deliver_spec ns clients) as (c'' & E' & H).
  rewrite E in E'. injection E' as _ ->.
  rewrite H in Hc. by apply entryAfter_origin in Hc.
Qed.

Lemma registry_clients_come_from_adds_witness :
  let ns := [Added "dev" (ConfigurationAt 2) None; Deleted "prod"] in
  (∃ t clients', deliver ns (∅ : Clients) = (t, Returned clients')
                 ∧ clients' !! "dev" = Some (ConfigurationAt 2))
  ∧ ((∅ : Clients) !! "dev" = Some (ConfigurationAt 2)
     ∨ Added "dev" (ConfigurationAt 2) None ∈ ns).
Proof.
  intros ns.
  assert (H : ∃ t clients', deliver ns (∅ : Clients) = (t, Returned clients')
                            ∧ clients' !! "dev" = Some (ConfigurationAt 2)).
  { eexists _, _. split; reflexivity. }
  split; [exact H|].
  exact (registry_clients_come_from_adds ns ∅ "dev" (ConfigurationAt 2) H).
Defined.

(** X5: while it delivers notifications the informer sends no metric and
    writes exactly one log line per notification, determined by the
    notification alone: a warning for a failed connection, an info line for a
    namespace now watched or removed. *)
Theorem one_log_line_per_notification ns (clients : Clients) :
  events (deliver ns clients) = (λ n, Log (logLine n)) <$> ns
  ∧ sent (events (deliver ns clients)) = []
  ∧ logged (events (deliver ns clients)) = logLine <$> ns.
Proof.
  destruct (deliver_spec ns clients) as (c' & -> & _). cbn [events fst].
  split; [done|]. split; induction ns as [|n ns IH]; cbn; by f_equal.
Qed.

Lemma dispatch_object h n (clients : Clients) :
  notificationOf h = Some n → dispatch h clients = handle n clients.
Proof.
  destruct h as [[name|] ac err|[name|]]; intros H; try discriminate H;
    injection H as <-.
  - by destruct err.
  - reflexivity.
Qed.

Lemma dispatch_other h (clients : Clients) :
  notificationOf h = None → dispatch h clients = ([], Panicked).
Proof. destruct h as [[name|] ac err|[name|]]; intros H; by try discriminate H. Qed.

Lemma runHandlers_objects hs (clients : Clients) :
  Forall (λ h, is_Some (notificationOf h)) hs →
  runHandlers hs clients = deliver (handledPrefix hs) clients.
Proof.
  intros H. revert clients. induction H as [|h hs [n Hn] _ IH]; intros clients; [done|].
  cbn [runHandlers handledPrefix]. rewrite Hn. cbn [deliver].
  rewrite (dispatch_object h n clients Hn).
  destruct (handle_spec n clients) as (c1 & -> & _).
  rewrite !bind_returned. cbn beta. by rewrite IH.
Qed.

Lemma runHandlers_panics hs (clients : Clients) :
  ¬ Forall (λ h, is_Some (notificationOf h)) hs →
  events (runHandlers hs clients) = events (deliver (handledPrefix hs) clients)
  ∧ outcome (runHandlers hs clients) = Panicked.
Proof.
  revert clients. induction hs as [|h hs IH]; intros clients Hno.
  - destruct Hno. constructor.
  - cbn [runHandlers handledPrefix]. destruct (notificationOf h) as [n|] eqn:Hn.
    + rewrite (dispatch_object h n clients Hn). cbn [deliver].
      destruct (handle_spec n clients) as (c1 & -> & _).
      rewrite !bind_returned. cbn beta.
      destruct (IH c1) as [He Ho].
      { intros Hall. apply Hno. constructor; [by rewrite Hn|done]. }
      cbn [events outcome fst snd]. fold (events (runHandlers hs c1)).
      fold (outcome (runHandlers hs c1)).
      fold (events (deliver (handledPrefix hs) c1)).
      by rewrite He, Ho.
    + by rewrite (dispatch_other h clients Hn).
Qed.

(** X6: the informer exits exactly when its own start-up fails: if [Init] or,
    after it, [KubernetesClientSet] returns an error, that error is logged at
    fatal level, nothing is handled and the process exits (an [Init] error
    taking precedence).  Once started it handles what it is handed as the
    notifications they are, connection failures included, and returns; unless
    a handler is handed a value that is not an object, at which its type
    assertion panics, after the notifications before it were handled. *)
Theorem informer_exits_only_at_startup initErr clientsetErr hs (clients : Clients) :
  (∀ e, initErr = Some e →
        informerOn initErr clientsetErr hs clients
        = ([Log (mkEntry FatalLevel [] e)], Exited))
  ∧ (∀ e, initErr = None → clientsetErr = Some e →
          informerOn initErr clientsetErr hs clients
          = ([Log (mkEntry FatalLevel [] e)], Exited))
  ∧ (initErr = None → clientsetErr = None →
     (Forall (λ h, is_Some (notificationOf h)) hs →
      informerOn initErr clientsetErr hs clients
      = informer initErr clientsetErr (handledPrefix hs) clients
      ∧ ∃ clients',
          informerOn initErr clientsetErr hs clients
          = ((λ n, Log (logLine n)) <$> handledPrefix hs, Returned clients'))
     ∧ (¬ Forall (λ h, is_Some (notificationOf h)) hs →
        informerOn initErr clientsetErr hs clients
        = ((λ n, Log (logLine n)) <$> handledPrefix hs, Panicked)))
  ∧ (outcome (informerOn initErr clientsetErr hs clients) = Exited
     ↔ initErr ≠ None ∨ clientsetErr ≠ None).
Proof.
  split; [by intros e ->|]. split; [by intros e -> ->|]. split.
  - intros -> ->. cbn [informerOn informer]. split.
    + intros Hall. rewrite runHandlers_objects by done. split; [done|].
      destruct (deliver_spec (handledPrefix hs) clients) as (c' & E & _). eauto.
    + intros Hno. destruct (runHandlers_panics hs clients Hno) as [He Ho].
      destruct (deliver_spec (handledPrefix hs) clients) as (c' & E & _).
      rewrite E in He. destruct (runHandlers hs clients) as [t o].
      cbn in He, Ho. by subst.
  - destruct initErr as [e|]; [split; [by left|done]|].
    destruct clientsetErr as [e|]; [split; [by right|done]|].
    cbn [informerOn]. split; [|by intros [?|?]].
    intros Hexit. exfalso.
    destruct (decide (Forall (λ h, is_Some (notificationOf h)) hs)) as [Hall|Hno].
    + rewrite runHandlers_objects in Hexit by done.
      destruct (deliver_spec (handledPrefix hs) clients) as (c' & E & _).
      rewrite E in Hexit. discriminate Hexit.
    + destruct (runHandlers_panics hs clients Hno) as [_ Ho].
      rewrite Ho in Hexit. discriminate Hexit.
Qed.

Lemma informer_exits_only_at_startup_witness :
  let hs := [HandedAdd (NamespaceObj "prod") (ConfigurationAt 1) None;
             HandedAdd (NamespaceObj "dev") (ConfigurationAt 2) (Some "forbidden")] in
  let tomb := [HandedAdd (NamespaceObj "prod") (ConfigurationAt 1) None;
               HandedDelete OtherObj;
               HandedDelete (NamespaceObj "prod")] in
  informerOn (Some "no cluster") None hs ∅
  = ([Log (mkEntry FatalLevel [] "no cluster")], Exited)
  ∧ informerOn None (Some "no clientset") hs ∅
    = ([Log (mkEntry FatalLevel [] "no clientset")], Exited)
  ∧ Forall (λ h, is_Some (notificationOf h)) hs
  ∧ (∃ clients', informerOn None None hs ∅
                 = ((λ n, Log (logLine n)) <$> handledPrefix hs, Returned clients'))
  ∧ ¬ Forall (λ h, is_Some (notificationOf h)) tomb
  ∧ informerOn None None tomb ∅
    = ([Log (logLine (Added "prod" (ConfigurationAt 1) None))], Panicked).
Proof.
  intros hs tomb.
  assert (Hall : Forall (λ h, is_Some (notificationOf h)) hs).
  { repeat constructor; by eexists. }
  assert (Hno : ¬ Forall (λ h, is_Some (notificationOf h)) tomb).
  { intros H. apply Forall_cons in H as [_ H]. apply Forall_cons in H as [[n Hn] _].
    discriminate Hn. }
  split; [|split; [|split; [|split; [|split]]]].
  - exact (proj1 (informer_exits_only_at_startup (Some "no cluster") None hs ∅)
             _ eq_refl).
  - exact (proj1 (proj2 (informer_exits_only_at_startup None (Some "no clientset")
                           hs ∅)) _ eq_refl eq_refl).
  - exact Hall.
  - exact (proj2 (proj1 (proj1 (proj2 (proj2 (informer_exits_only_at_startup
                                                None None hs ∅)))
                           eq_refl eq_refl) Hall)).
  - exact Hno.
  - exact (proj2 (proj1 (proj2 (proj2 (informer_exits_only_at_startup
                                         None None tomb ∅)))
                    eq_refl eq_refl) Hno).
Defined.

(** * Static mode *)

Lemma Split_length s sep : length (Split s sep) = S (occurrences sep s).
Proof.
  induction s as [|c s IH]; [done|].
  cbn [Split occurrences]. destruct (decide (c = sep)); cbn [length].
  - by rewrite IH.
  - destruct (Split s sep) as [|p ps]; cbn in *; lia.
Qed.

Lemma connectFrom_deliver k answer names (clients : Clients) :
  connectFrom k answer names clients = deliver (attempts k answer names) clients.
Proof.
  revert k clients. induction names as [|name names IH]; intros k clients; [done|].
  cbn [connectFrom attempts deliver handle AddFunc].
  unfold connect. destruct (snd (answer k)) as [e|]; cbn; by rewrite IH.
Qed.

Lemma attempts_length k answer names :
  length (attempts k answer names) = length names.
Proof.
  revert k. induction names as [|name names IH]; intros k; [done|].
  cbn. by rewrite IH.
Qed.

Lemma attempts_elem k answer names N c :
  Added N c None ∈ attempts k answer names →
  ∃ i, names !! i = Some N ∧ answer (k + i) = (c, None).
Proof.
  revert k. induction names as [|name names IH]; intros k H.
  - by apply elem_of_nil in H.
  - cbn [attempts] in H. apply elem_of_cons in H as [H|H].
    + injection H as -> Hc He. exists 0. split; [done|].
      rewrite Nat.add_0_r. destruct (answer k) as [c' e']. cbn in *. by subst.
    + apply IH in H as (i & Hi & Ha). exists (S i). split; [done|].
      by rewrite Nat.add_succ_r.
Qed.

Lemma entryAfter_attempts_is_Some N k answer names cur :
  is_Some cur ∨ (∃ i, names !! i = Some N ∧ snd (answer (k + i)) = None) →
  is_Some (entryAfter N (attempts k answer names) cur).
Proof.
  revert k cur. induction names as [|name names IH]; intros k cur H.
  - destruct H as [H|(i & Hi & _)]; [done|]. by rewrite lookup_nil in Hi.
  - cbn [attempts entryAfter fold_left]. apply IH.
    destruct H as [H|([|i] & Hi & Ha)].
    + left. cbn. destruct (snd (answer k)); [done|]. by destruct (decide (name = N)).
    + left. cbn in Hi. injection Hi as ->. rewrite Nat.add_0_r in Ha.
      cbn. rewrite Ha. by rewrite decide_True.
    + right. exists i. split; [done|]. by rewrite Nat.add_succ_r in Ha.
Qed.

(** X7: in static mode, starting from the empty registry, the loop over the
    comma-separated pieces of the namespaces flag returns, and the registry
    it leaves holds a namespace exactly when one of the pieces is that
    namespace and its connection attempt succeeded; every client in it is
    the one built by such an attempt. *)
Theorem static_mode_registry flags answer :
  let pieces := Split (namespaces flags) "," in
  ∃ t clients',
    connectNamespaces flags answer ∅ = (t, Returned clients')
    ∧ (∀ N c, clients' !! N = Some c →
              ∃ i, pieces !! i = Some N ∧ answer i = (c, None))
    ∧ (∀ N, is_Some (clients' !! N)
            ↔ ∃ i, pieces !! i = Some N ∧ snd (answer i) = None).
Proof.
  intros pieces. unfold connectNamespaces. fold pieces.
  rewrite connectFrom_deliver.
  destruct (deliver_spec (attempts 0 answer pieces) ∅) as (c' & E & H).
  eexists _, c'. split; [exact E|].
  assert (Hfrom : ∀ N c, c' !! N = Some c →
                         ∃ i, pieces !! i = Some N ∧ answer i = (c, None)).
  { intros N c Hc. rewrite H, lookup_empty in Hc.
    apply entryAfter_origin in Hc as [Hc|Hc]; [done|].
    by apply attempts_elem in Hc. }
  split; [exact Hfrom|]. intros N. split.
  - intros [c Hc]. destruct (Hfrom N c Hc) as (i & Hi & Ha).
    exists i. split; [done|]. by rewrite Ha.
  - intros Hi. rewrite H. apply entryAfter_attempts_is_Some. by right.
Qed.

(** X8: static mode makes one connection attempt per piece of the namespaces
    flag, empty pieces included: the loop is the delivery of one add per
    piece, it writes one more log line than the flag has commas, and it
    sends no metric. *)
Theorem static_mode_attempts flags answer (clients : Clients) :
  connectNamespaces flags answer clients
  = deliver (attempts 0 answer (Split (namespaces flags) ",")) clients
  ∧ length (logged (events (connectNamespaces flags answer clients)))
    = S (occurrences "," (namespaces flags))
  ∧ sent (events (connectNamespaces flags answer clients)) = [].
Proof.
  unfold connectNamespaces. rewrite connectFrom_deliver.
  split; [done|].
  destruct (deliver_spec (attempts 0 answer (Split (namespaces flags) ",")) clients)
    as (c' & -> & _).
  cbn [events fst].
  generalize (attempts_length 0 answer (Split (namespaces flags) ",")).
  rewrite Split_length.
  generalize (attempts 0 answer (Split (namespaces flags) ",")).
  intros ns Hlen. split.
  - rewrite <- Hlen. clear Hlen. induction ns as [|n ns IH]; cbn; [done|].
    f_equal. exact IH.
  - clear Hlen. induction ns as [|n ns IH]; cbn; [done|]. exact IH.
Qed.

(** * Further properties of a scrape *)

Lemma logged_app (t1 t2 : list Event) : logged (t1 ++ t2) = logged t1 ++ logged t2.
Proof. apply omap_app. Qed.

Lemma logged_flat_map {A} (f : A → list Event) (l : list A) :
  logged (flat_map f l) = flat_map (λ x, logged (f x)) l.
Proof.
  induction l as [|x l IH]; [done|].
  cbn [flat_map]. by rewrite logged_app, IH.
Qed.

Lemma logged_collectItem flags cfg item :
  logged (events (collectItem flags cfg newHelmCollector item))
  = if fetchLatest flags
    then [mkEntry DebugLevel [("chart", chart.Name (release.Chart item))]
            ("last chart repo version is  "
             +:+ GetLatestVersionFromHelm (cfg_HelmRegistries cfg)
                   (chart.Name (release.Chart item)))]
    else [].
Proof.
  unfold collectItem.
  destruct (fetchLatest flags), (infoMetric flags), (timestampMetric flags);
    reflexivity.
Qed.

(** X9: the samples of a scrape are, release by release in the order the
    listings are visited and returned, the revision-count sample, then the
    info sample if enabled, then the timestamp sample if enabled; so their
    number is the number of listed releases times the number of enabled
    families, and a scrape sends nothing exactly when no release is listed. *)
Theorem scrape_output flags cfg Run l :
  let ms := sent (events (Collect flags cfg Run newHelmCollector l)) in
  ms = flat_map
         (λ r, revisionMetric r
               :: (if infoMetric flags
                   then [infoMetricOf (latestVersionOf flags cfg r) r] else [])
               ++ (if timestampMetric flags
                   then [timestampMetricOf (latestVersionOf flags cfg r) r] else []))
         (listed Run l)
  ∧ length ms
    = (1 + (if infoMetric flags then 1 else 0)
       + (if timestampMetric flags then 1 else 0)) * length (listed Run l)
  ∧ (ms = [] ↔ listed Run l = []).
Proof.
  intros ms. subst ms. rewrite sent_Collect. unfold itemMetrics.
  split; [done|].
  generalize (listed Run l). intros rs. split.
  - induction rs as [|r rs IH]; [cbn; lia|].
    cbn [flat_map]. rewrite length_app, IH. cbn [length app].
    destruct (infoMetric flags), (timestampMetric flags); cbn; lia.
  - destruct rs as [|r rs]; [done|]. split; discriminate.
Qed.

(** X10: the log of a scrape is, entry by entry of the snapshot in the order
    visited, one warning carrying the error for a listing that failed, and
    for a listing that succeeded one debug line per release with the chart
    and the resolved version when latest-version resolution is on, nothing
    when it is off. *)
Theorem scrape_log flags cfg Run l :
  logged (events (Collect flags cfg Run newHelmCollector l))
  = flat_map (λ kv, clientLog flags cfg Run (snd kv)) l.
Proof.
  rewrite Collect_eq. cbn [events fst]. rewrite logged_flat_map.
  apply flat_map_ext. intros [M client]. cbn [snd].
  unfold collectClient, clientLog. destruct (Run client) as [rs [e|]]; [done|].
  rewrite collectItems_eq. cbn [events fst]. rewrite logged_flat_map.
  induction rs as [|r rs IH]; cbn [flat_map].
  - by destruct (fetchLatest flags).
  - rewrite IH, logged_collectItem. by destruct (fetchLatest flags).
Qed.

(** X11: with both families enabled, the info sample and the timestamp
    sample of each release carry the same label names and the same label
    values. *)
Theorem info_and_timestamp_share_labels flags cfg Run l :
  infoMetric flags = true →
  timestampMetric flags = true →
  let ms := sent (events (Collect flags cfg Run newHelmCollector l)) in
  prometheus.labelValues <$> samplesNamed "helm_chart_info" ms
  = prometheus.labelValues <$> samplesNamed "helm_chart_timestamp" ms
  ∧ (λ m, prometheus.variableLabels (prometheus.desc m))
      <$> samplesNamed "helm_chart_info" ms
    = (λ m, prometheus.variableLabels (prometheus.desc m))
        <$> samplesNamed "helm_chart_timestamp" ms.
Proof.
  intros Hi Ht ms. subst ms.
  rewrite info_samples_of_Collect, timestamp_samples_of_Collect by done.
  rewrite <- !list_fmap_compose. done.
Qed.

Lemma info_and_timestamp_share_labels_witness :
  let Run := λ _ : Configuration, ([web; broken], None) in
  let ms := sent (events (Collect defaultFlags noRegistries Run newHelmCollector
                            [("prod", ConfigurationAt 1)])) in
  infoMetric defaultFlags = true ∧ timestampMetric defaultFlags = true
  ∧ prometheus.labelValues <$> samplesNamed "helm_chart_info" ms
    = prometheus.labelValues <$> samplesNamed "helm_chart_timestamp" ms.
Proof.
  intros Run ms. split; [reflexivity|]. split; [reflexivity|].
  exact (proj1 (info_and_timestamp_share_labels defaultFlags noRegistries Run
                  [("prod", ConfigurationAt 1)] eq_refl eq_refl)).
Defined.

(** X12: a scrape never reads the namespace a client is registered under:
    two snapshots with the same clients in the same order give the same
    events and outcome, whatever the collector. *)
Theorem Collect_ignores_keys flags cfg Run c (l1 l2 : list (string * Configuration)) :
  snd <$> l1 = snd <$> l2 →
  Collect flags cfg Run c l1 = Collect flags cfg Run c l2.
Proof.
  unfold Collect. revert l2.
  induction l1 as [|[M1 c1] l1 IH]; intros [|[M2 c2] l2] H; try done.
  cbn in H. injection H as -> H. cbn [forRange snd]. by rewrite (IH l2).
Qed.

Lemma Collect_ignores_keys_witness :
  let Run := λ _ : Configuration, ([web], None) in
  snd <$> [("prod", ConfigurationAt 1)] = snd <$> [("dev", ConfigurationAt 1)]
  ∧ Collect defaultFlags noRegistries Run newHelmCollector [("prod", ConfigurationAt 1)]
    = Collect defaultFlags noRegistries Run newHelmCollector [("dev", ConfigurationAt 1)].
Proof.
  intros Run. split; [reflexivity|].
  exact (Collect_ignores_keys defaultFlags noRegistries Run newHelmCollector
           [("prod", ConfigurationAt 1)] [("dev", ConfigurationAt 1)] eq_refl).
Defined.

(** X13: whatever the status string, the status code is one of -1, 0, 1, 2,
    3, 5, 6, 7, 8; it is negative exactly for "failed", and it is 0 exactly
    for "unknown" and for the strings that are not in the table, which are
    thus reported like "unknown". *)
Theorem status_code_range (s : string) :
  let v := index_float64 statusCodeMap s in
  v ∈ [(-1)%Z; 0%Z; 1%Z; 2%Z; 3%Z; 5%Z; 6%Z; 7%Z; 8%Z]
  ∧ ((v < 0)%Z ↔ s = "failed")
  ∧ (v = 0%Z ↔ s = "unknown" ∨ (s ∉ statusNames)).
Proof.
  intros v. subst v.
  destruct (decide (s ∈ statusNames)) as [Hin|Hout].
  - assert (Hnot : ¬ (s ∉ statusNames)) by (intros H; by apply H).
    unfold statusNames in Hin.
    repeat (apply elem_of_cons in Hin as [->|Hin];
            [match goal with
             | |- context [index_float64 statusCodeMap ?k] =>
                 let v := eval vm_compute in (index_float64 statusCodeMap k) in
                 change (index_float64 statusCodeMap k) with v
             end;
             split; [by repeat constructor|];
             split; split; intros Hx;
               first [done | lia | by left
                     | destruct Hx as [?|?]; first [done | by destruct Hnot]]|]).
    by apply elem_of_nil in Hin.
  - unfold index_float64. rewrite statusCodeMap_outside by done. cbn.
    split; [by repeat constructor|]. split; split; try lia; try by right.
    intros ->. exfalso. apply Hout. unfold statusNames. by repeat constructor.
Qed.

Lemma collectItem_fits flags cfg c item :
  fits flags c → outcome (collectItem flags cfg c item) = Returned tt.
Proof.
  intros (Hr & Hi & Ht). unfold collectItem, MustNewConstMetric,
    prometheus.NewConstMetric. cbn [length]. rewrite Hr.
  destruct (fetchLatest flags), (infoMetric flags), (timestampMetric flags);
    rewrite ?Hi, ?Ht by done; reflexivity.
Qed.

Lemma collectItem_misfit flags cfg c item :
  ¬ fits flags c → outcome (collectItem flags cfg c item) = Panicked.
Proof.
  intros Hno. unfold collectItem, MustNewConstMetric,
    prometheus.NewConstMetric. cbn [length].
  destruct (decide (3 = length (prometheus.variableLabels (revisionsCounterDesc c))))
    as [Hr|Hr]; [|by destruct (fetchLatest flags)].
  destruct (infoMetric flags) eqn:Ei.
  - destruct (decide (7 = length (prometheus.variableLabels (statsInfoGaugeDesc c))))
      as [Hi|Hi]; [|by destruct (fetchLatest flags)].
    destruct (timestampMetric flags) eqn:Et.
    + destruct (decide (7 = length (prometheus.variableLabels (statsTimestampGaugeDesc c))))
        as [Ht|Ht]; [|by destruct (fetchLatest flags)].
      destruct Hno. unfold fits. by rewrite <- Hr, <- Hi, <- Ht.
    + destruct Hno. unfold fits. rewrite <- Hr, <- Hi, Et. done.
  - destruct (timestampMetric flags) eqn:Et.
    + destruct (decide (7 = length (prometheus.variableLabels (statsTimestampGaugeDesc c))))
        as [Ht|Ht]; [|by destruct (fetchLatest flags)].
      destruct Hno. unfold fits. rewrite <- Hr, <- Ht, Ei. done.
    + destruct Hno. unfold fits. rewrite <- Hr, Ei, Et. done.
Qed.

Lemma forRange_first_panics {A} (body : A → M unit) x (l : list A) :
  outcome (body x) = Panicked → outcome (forRange (x :: l) body) = Panicked.
Proof.
  cbn [forRange]. destruct (body x) as [t o]. cbn. by intros ->.
Qed.

(** X14: what a scrape needs of its collector.  With at least one release
    listed, the scrape panics whenever a descriptor it uses does not have the
    label count of the label list it passes (three for the revision count,
    seven for the info and the timestamp family when enabled), so a scrape
    that returns with releases listed had fitting descriptors; with no
    release listed it returns whatever the descriptors; it never exits the
    process; and the descriptors of [newHelmCollector] have these counts for
    all flags. *)
Theorem collector_must_fit flags cfg Run c l :
  (listed Run l ≠ [] → ¬ fits flags c →
   outcome (Collect flags cfg Run c l) = Panicked)
  ∧ (outcome (Collect flags cfg Run c l) = Returned tt →
     listed Run l = [] ∨ fits flags c)
  ∧ (listed Run l = [] → outcome (Collect flags cfg Run c l) = Returned tt)
  ∧ outcome (Collect flags cfg Run c l) ≠ Exited
  ∧ fits flags newHelmCollector.
Proof.
  assert (Hmain : outcome (Collect flags cfg Run c l)
                  = if decide (listed Run l = [])
                    then Returned tt
                    else if decide (fits flags c) then Returned tt else Panicked).
  { unfold Collect.
    set (body := λ kv : string * Configuration, collectClient flags cfg Run c (snd kv)).
    induction l as [|[M client] l IH]; [done|].
    cbn [forRange listed flat_map snd]. fold (listed Run l).
    assert (Hhead : body (M, client) = collectClient flags cfg Run c client) by done.
    rewrite Hhead. clear Hhead. unfold collectClient.
    destruct (Run client) as [rs [e|]].
    - cbn [app]. unfold Warnf, emit. rewrite bind_returned. exact IH.
    - destruct (decide (fits flags c)) as [Hf|Hf].
      + rewrite forRange_returns by (intros; by apply collectItem_fits).
        rewrite bind_returned. cbn [outcome snd]. cbn [outcome snd] in IH.
        rewrite IH. repeat case_decide; try done.
        all: destruct rs; done.
      + destruct rs as [|r rs].
        * cbn [forRange app]. unfold ret. rewrite bind_returned. exact IH.
        * rewrite decide_False by done.
          pose proof (forRange_first_panics (collectItem flags cfg c) r rs
                        (collectItem_misfit flags cfg c r Hf)) as Hp.
          destruct (forRange (r :: rs) _) as [t o]. cbn in Hp. by subst o. }
  split; [|split; [|split; [|split]]].
  - intros Hne Hno. by rewrite Hmain, !decide_False.
  - rewrite Hmain. intros Hret.
    destruct (decide (listed Run l = [])); [by left|].
    destruct (decide (fits flags c)); [by right|discriminate Hret].
  - intros He. by rewrite Hmain, decide_True.
  - rewrite Hmain. by repeat case_decide.
  - unfold fits. by cbn.
Qed.

Lemma collector_must_fit_witness :
  let Run := λ _ : Configuration, ([web], None) in
  let l := [("prod", ConfigurationAt 1)] in
  let c := mkHelmCollector
             (prometheus.NewDesc "helm_chart_all_releases_total" "" ["chart"; "release"])
             (statsInfoGaugeDesc newHelmCollector)
             (statsTimestampGaugeDesc newHelmCollector) in
  listed Run l ≠ []
  ∧ ¬ fits defaultFlags c
  ∧ outcome (Collect defaultFlags noRegistries Run c l) = Panicked.
Proof.
  intros Run l c.
  assert (Hne : listed Run l ≠ []) by discriminate.
  assert (Hno : ¬ fits defaultFlags c).
  { intros (Hr & _). discriminate Hr. }
  split; [exact Hne|]. split; [exact Hno|].
  exact (proj1 (collector_must_fit defaultFlags noRegistries Run c l) Hne Hno).
Defined.

Lemma itemMetrics_described flags latest r m :
  m ∈ itemMetrics flags latest r →
  prometheus.desc m ∈ Describe flags newHelmCollector
  ∧ length (prometheus.labelValues m)
    = length (prometheus.variableLabels (prometheus.desc m)).
Proof.
  unfold itemMetrics, Describe. intros Hm.
  apply elem_of_app in Hm as [Hm|Hm];
    [|apply elem_of_app in Hm as [Hm|Hm]].
  - apply list_elem_of_singleton in Hm as ->. split; [|done].
    apply elem_of_app. by left; left.
  - destruct (infoMetric flags); [|by apply elem_of_nil in Hm].
    apply list_elem_of_singleton in Hm as ->. split; [|done].
    apply elem_of_app. right. apply elem_of_app. by left; left.
  - destruct (timestampMetric flags); [|by apply elem_of_nil in Hm].
    apply list_elem_of_singleton in Hm as ->. split; [|done].
    apply elem_of_app. right. apply elem_of_app. by right; left.
Qed.

(** X15: [Describe] and [Collect] agree under every setting of the flags: a
    descriptor is announced by [Describe] exactly when some scrape sends a
    metric of it, every metric a scrape sends has as many label values as its
    descriptor has labels, and no descriptor is announced twice. *)
Theorem Describe_matches_Collect flags (d : Desc) :
  (d ∈ Describe flags newHelmCollector
   ↔ ∃ cfg Run l m,
       m ∈ sent (events (Collect flags cfg Run newHelmCollector l))
       ∧ prometheus.desc m = d)
  ∧ (∀ cfg Run l m,
       m ∈ sent (events (Collect flags cfg Run newHelmCollector l)) →
       length (prometheus.labelValues m)
       = length (prometheus.variableLabels (prometheus.desc m)))
  ∧ NoDup (prometheus.fqName <$> Describe flags newHelmCollector).
Proof.
  split; [|split].
  - split.
    + intros Hd.
      exists noRegistries, (λ _, ([web], None)), [("prod", ConfigurationAt 1)].
      rewrite sent_Collect. cbn [listed flat_map snd app].
      rewrite app_nil_r. unfold Describe in Hd. unfold itemMetrics.
      apply elem_of_app in Hd as [Hd|Hd];
        [|apply elem_of_app in Hd as [Hd|Hd]].
      * apply list_elem_of_singleton in Hd as ->.
        eexists. split; [apply elem_of_app; left; left|done].
      * destruct (infoMetric flags); [|by apply elem_of_nil in Hd].
        apply list_elem_of_singleton in Hd as ->.
        eexists. split; [apply elem_of_app; right; apply elem_of_app; left; left|done].
      * destruct (timestampMetric flags); [|by apply elem_of_nil in Hd].
        apply list_elem_of_singleton in Hd as ->.
        eexists. split; [apply elem_of_app; right; apply elem_of_app; right; left|done].
    + intros (cfg & Run & l & m & Hm & <-).
      rewrite sent_Collect in Hm. apply elem_of_flat_map in Hm as (r & _ & Hm).
      by apply itemMetrics_described in Hm as [? _].
  - intros cfg Run l m Hm.
    rewrite sent_Collect in Hm. apply elem_of_flat_map in Hm as (r & _ & Hm).
    by apply itemMetrics_described in Hm as [_ ?].
  - unfold Describe.
    destruct (infoMetric flags), (timestampMetric flags); cbn;
      repeat (apply NoDup_cons; split; [rewrite ?not_elem_of_cons;
        repeat split; try discriminate; apply not_elem_of_nil|]);
      apply NoDup_nil_2.
Qed.

(** X16: with latest-version resolution on, the latestVersion label of the
    info sample and of the timestamp sample of each listed release is the
    string [GetLatestVersionFromHelm] gives for the name of that release's
    chart: the resolver is asked by chart name, and its answer goes into the
    label as it is. *)
Theorem latest_version_by_chart_name flags cfg Run l :
  fetchLatest flags = true →
  let ms := sent (events (Collect flags cfg Run newHelmCollector l)) in
  let resolved := λ r : Release,
    Some (GetLatestVersionFromHelm (cfg_HelmRegistries cfg)
            (chart.Name (release.Chart r))) in
  (infoMetric flags = true →
   prometheus.label "latestVersion" <$> samplesNamed "helm_chart_info" ms
   = resolved <$> listed Run l)
  ∧ (timestampMetric flags = true →
     prometheus.label "latestVersion" <$> samplesNamed "helm_chart_timestamp" ms
     = resolved <$> listed Run l).
Proof.
  intros Hf ms resolved. subst ms. split.
  - intros Hi. rewrite info_samples_of_Collect by done.
    rewrite <- list_fmap_compose. apply list_fmap_ext. intros _ r _.
    unfold compose, latestVersionOf. by rewrite Hf.
  - intros Ht. rewrite timestamp_samples_of_Collect by done.
    rewrite <- list_fmap_compose. apply list_fmap_ext. intros _ r _.
    unfold compose, latestVersionOf. by rewrite Hf.
Qed.

Lemma latest_version_by_chart_name_witness :
  let cfg := mkConfig (λ name, if decide (name = "nginx")
                               then Found "1.3.0" else NotFound) in
  let Run := λ _ : Configuration, ([web; broken], None) in
  fetchLatest defaultFlags = true
  ∧ infoMetric defaultFlags = true
  ∧ prometheus.label "latestVersion"
      <$> samplesNamed "helm_chart_info"
            (sent (events (Collect defaultFlags cfg Run newHelmCollector
                             [("prod", ConfigurationAt 1)])))
    = [Some "1.3.0"; Some ""].
Proof.
  intros cfg Run. split; [reflexivity|]. split; [reflexivity|].
  exact (proj1 (latest_version_by_chart_name defaultFlags cfg Run
                  [("prod", ConfigurationAt 1)] eq_refl) eq_refl).
Defined.

Lemma sent_Collect_Permutation flags cfg Run (l1 l2 : list (string * Configuration)) :
  l1 ≡ₚ l2 →
  sent (events (Collect flags cfg Run newHelmCollector l1))
  ≡ₚ sent (events (Collect flags cfg Run newHelmCollector l2)).
Proof.
  intros H. rewrite !sent_Collect.
  apply Permutation_flat_map. by apply listed_Permutation.
Qed.

Lemma sent_Collect_cons flags cfg Run kv (l : list (string * Configuration)) :
  sent (events (Collect flags cfg Run newHelmCollector (kv :: l)))
  = sent (events (Collect flags cfg Run newHelmCollector [kv]))
    ++ sent (events (Collect flags cfg Run newHelmCollector l)).
Proof.
  change (kv :: l) with ([kv] ++ l). by rewrite Collect_app, sent_app.
Qed.

(** X17: how the registry's writers compose with a scrape.  Installing a
    client for a namespace that had no entry adds to the samples of a scrape
    exactly the samples of that client's listing, and removing a namespace
    takes away exactly the samples of its client's listing; the samples of
    the other namespaces stay (up to the order of the visit). *)
Theorem registry_change_is_local flags cfg Run (clients : Clients) N c l l' :
  Items clients l →
  (clients !! N = None →
   Items (<[N := c]> clients) l' →
   sent (events (Collect flags cfg Run newHelmCollector l'))
   ≡ₚ sent (events (Collect flags cfg Run newHelmCollector [(N, c)]))
      ++ sent (events (Collect flags cfg Run newHelmCollector l)))
  ∧ (clients !! N = Some c →
     Items (delete N clients) l' →
     sent (events (Collect flags cfg Run newHelmCollector l))
     ≡ₚ sent (events (Collect flags cfg Run newHelmCollector [(N, c)]))
        ++ sent (events (Collect flags cfg Run newHelmCollector l'))).
Proof.
  unfold Items. intros Hl. split.
  - intros HN Hl'. rewrite <- sent_Collect_cons.
    apply sent_Collect_Permutation.
    rewrite Hl', Hl. by apply map_to_list_insert.
  - intros HN Hl'. rewrite <- sent_Collect_cons.
    apply sent_Collect_Permutation.
    rewrite Hl', Hl. symmetry. by apply map_to_list_delete.
Qed.

Lemma registry_change_is_local_witness :
  let clients : Clients := <["prod" := ConfigurationAt 1]> ∅ in
  let Run := λ c : Configuration,
    match c with
    | ConfigurationAt 1 => ([web; broken], None)
    | _ => ([odd], None)
    end in
  let l := map_to_list clients in
  let l' := map_to_list (<["dev" := ConfigurationAt 2]> clients) in
  Items clients l
  ∧ clients !! "dev" = None
  ∧ Items (<["dev" := ConfigurationAt 2]> clients) l'
  ∧ sent (events (Collect defaultFlags noRegistries Run newHelmCollector l'))
    ≡ₚ sent (events (Collect defaultFlags noRegistries Run newHelmCollector
                       [("dev", ConfigurationAt 2)]))
       ++ sent (events (Collect defaultFlags noRegistries Run newHelmCollector l)).
Proof.
  intros clients Run l l'.
  assert (Hl : Items clients l) by (unfold Items; reflexivity).
  assert (HN : clients !! "dev" = None) by reflexivity.
  assert (Hl' : Items (<["dev" := ConfigurationAt 2]> clients) l')
    by (unfold Items; reflexivity).
  split; [exact Hl|]. split; [exact HN|]. split; [exact Hl'|].
  exact (proj1 (registry_change_is_local defaultFlags noRegistries Run clients
                  "dev" (ConfigurationAt 2) l l' Hl) HN Hl').
Defined.
